(** * Optical tachometer firmware (tools/ardubenchmark/ardubenchmark.c)

    A shallow embedding of the measurement-and-reporting pipeline of the
    Arduino Nano tachometer firmware: the serial frame buffer, the moving
    average of the photodiode signal, the hysteresis edge detector, the
    period/timeout logic of [main] and the sticky failure latch.

    Conventions.
    - A C object of an unsigned [w]-bit type is a [Z]; every operation of
      the source that can leave the range is followed by the wrap-around of
      its type ([u8], [u16], [u32]); the signed 16-bit conversion is [s16].
    - The target is the ATmega328P ([avr/io.h], [F_CPU] = 16 MHz): [int] is
      16 bits wide, so the operands of [timestamp - prev_opto_timestamp]
      are promoted to [unsigned int] and the difference wraps modulo 2^16;
      objects are stored little-endian, which fixes what [memcpy] of a
      [uint16_t] writes.
    - C arrays are lists updated by index.  The source never indexes out of
      range on reachable states (this is proved below); out of range the
      list update does nothing and the total lookup reads 0.
    - Objects with static storage duration start zeroed.
    - Hardware registers that the core only reads (ADC data, timer count,
      UART status) are inputs of the step functions. *)

From stdpp Require Import base list numbers.

Open Scope Z_scope.

(** ** Fixed-width integers *)

Definition u8 (x : Z) : Z := x mod 256.
Definition u16 (x : Z) : Z := x mod 65536.
Definition u32 (x : Z) : Z := x mod 4294967296.
Definition s16 (x : Z) : Z := (x + 32768) mod 65536 - 32768.

Definition is_u8 (x : Z) : Prop := 0 <= x < 256.
Definition is_u16 (x : Z) : Prop := 0 <= x < 65536.

#[global] Instance is_u8_dec x : Decision (is_u8 x).
Proof. unfold is_u8. apply _. Defined.
#[global] Instance is_u16_dec x : Decision (is_u16 x).
Proof. unfold is_u16. apply _. Defined.

(** Sum of a list of integers, without any wrap-around. *)
Fixpoint zsum (l : list Z) : Z :=
  match l with
  | [] => 0
  | x :: l' => x + zsum l'
  end.

(** The last [n] elements of a list (the whole list when it is shorter). *)
Definition lastn {A} (n : nat) (l : list A) : list A :=
  drop (length l - n) l.

(** A test signal of [n] samples: a sawtooth over [0, 250]. *)
Definition sawtooth (n : Z) : list Z := (fun i => i mod 251) <$> seqZ 0 n.

(** ** DC bias tracker: [opto_update_dc_signal] *)

Module Opto.

Definition OPTO_THRESHOLD : Z := 30.
Definition OPTO_DC_HISTORY_LEN : Z := 1024.

(** The four function-local statics of [opto_update_dc_signal]. *)
Record dc_state := mk_dc {
  hist : list Z;          (* uint8_t hist[OPTO_DC_HISTORY_LEN] *)
  num_samples : Z;        (* uint16_t *)
  index : Z;              (* uint16_t *)
  sum : Z                 (* uint32_t *)
}.

Definition dc_init : dc_state :=
  mk_dc (replicate (Z.to_nat OPTO_DC_HISTORY_LEN) 0) 0 0 0.

(** [sample] has type [uint8_t].  The result pair is the new state and
    the returned [uint8_t]; the division is done on [uint32_t] and the
    conversion of the return statement is [u8]. *)
Definition opto_update_dc_signal (st : dc_state) (sample : Z)
  : dc_state * Z :=
  if num_samples st =? OPTO_DC_HISTORY_LEN then
    let i := Z.to_nat (index st) in
    let sum1 := u32 (sum st - hist st !!! i) in
    let hist1 := <[i := sample]> (hist st) in
    let sum2 := u32 (sum1 + sample) in
    let index1 := u16 (index st + 1) in
    let index2 := if index1 >=? OPTO_DC_HISTORY_LEN then 0 else index1 in
    (mk_dc hist1 (num_samples st) index2 sum2,
     u8 (sum2 / OPTO_DC_HISTORY_LEN))
  else
    let hist1 := <[Z.to_nat (num_samples st) := sample]> (hist st) in
    let n1 := u16 (num_samples st + 1) in
    let sum1 := u32 (sum st + sample) in
    (mk_dc hist1 n1 (index st) sum1, u8 (sum1 / n1)).

(** The tracker after a sequence of calls, starting from [st]. *)
Definition dc_run (st : dc_state) (samples : list Z) : dc_state :=
  foldl (fun s x => (opto_update_dc_signal s x).1) st samples.

(** The history ring read in order of arrival, oldest entry first: during
    warm-up the filled prefix, afterwards the array rotated at [index]. *)
Definition ring (st : dc_state) : list Z :=
  if num_samples st =? OPTO_DC_HISTORY_LEN
  then drop (Z.to_nat (index st)) (hist st)
         ++ take (Z.to_nat (index st)) (hist st)
  else take (Z.to_nat (num_samples st)) (hist st).

(** The window length as a list length. *)
Definition W : nat := Z.to_nat OPTO_DC_HISTORY_LEN.

(** What the statics hold after the calls with arguments [samples], in
    order: the ring is the last [W] of them, [sum] is their exact sum,
    the counter saturates at [W] and the write index stays in the array
    (and at 0 until the array is full). *)
Record dc_inv (samples : list Z) (st : dc_state) : Prop := mk_dc_inv {
  inv_len : length (hist st) = W;
  inv_ring : ring st = lastn W samples;
  inv_sum : sum st = zsum (lastn W samples);
  inv_count : num_samples st = Z.of_nat (Nat.min W (length samples));
  inv_index : 0 <= index st < OPTO_DC_HISTORY_LEN;
  inv_index0 : (length samples < W)%nat -> index st = 0
}.

End Opto.

(** ** Edge detector: [opto_detect_edge] *)

Module Edge.
Import Opto.

(** [in_peak] is the function-local static; the DC tracker statics are
    reached through the nested call; [PORTD] is the output port written
    by [rpm_out_set] and [rpm_out_clr]. *)
Record edge_state := mk_edge {
  dc : dc_state;
  in_peak : bool;
  PORTD : Z
}.

Definition rpm_out_set : Z := 255.   (* PORTD = 0xFF *)
Definition rpm_out_clr : Z := 251.   (* PORTD = 0xFB *)

(** [gpio_init] leaves [PORTD = 0xFF]; [in_peak] starts [false]. *)
Definition edge_init : edge_state := mk_edge dc_init false 255.

(** The value of the local [ac] for a call with argument [sample]
    ([int16_t]): the argument is converted to [uint8_t] for the nested
    call, the difference is converted back to [int16_t]. *)
Definition ac_of (st : edge_state) (sample : Z) : Z :=
  let dcv := (opto_update_dc_signal (dc st) (u8 sample)).2 in
  s16 (sample - dcv).

Definition opto_detect_edge (st : edge_state) (sample : Z)
  : edge_state * bool :=
  let '(dc1, dcv) := opto_update_dc_signal (dc st) (u8 sample) in
  let ac := s16 (sample - dcv) in
  if in_peak st then
    if ac <? OPTO_THRESHOLD ÷ 4
    then (mk_edge dc1 false (PORTD st), false)
    else (mk_edge dc1 true (PORTD st), false)
  else
    if ac >? OPTO_THRESHOLD
    then (mk_edge dc1 true rpm_out_set, true)
    else (mk_edge dc1 false rpm_out_clr, false).

(** The detector after a sequence of calls. *)
Definition edge_run (st : edge_state) (samples : list Z) : edge_state :=
  foldl (fun s x => (opto_detect_edge s x).1) st samples.

End Edge.

(** ** Serial frame buffer: [serial_init], [serial_send], [serial_poll] *)

Module Serial.

Definition SERIAL_FRAME_HEADER : Z := 250.   (* 0xFA *)
Definition SERIAL_FRAME_SIZE : Z := 1 + 1 + 2 + 2 + 2.

Record serial_tx_frame := mk_frame {
  data : list Z;          (* uint8_t data[SERIAL_FRAME_SIZE] *)
  next_index : Z          (* uint8_t *)
}.

(** The global before [serial_init]: zeroed static storage. *)
Definition frame_zero : serial_tx_frame :=
  mk_frame (replicate (Z.to_nat SERIAL_FRAME_SIZE) 0) 0.

(** Only the assignment to [next_index]; the UART registers written by
    [serial_init] are not part of the model. *)
Definition serial_init (f : serial_tx_frame) : serial_tx_frame :=
  mk_frame (data f) SERIAL_FRAME_SIZE.

(** [memcpy(data + off, &v, 2)] for a [uint16_t v], little-endian. *)
Definition memcpy_u16 (d : list Z) (off : nat) (v : Z) : list Z :=
  <[S off := u8 (v / 256)]> (<[off := u8 v]> d).

(** One iteration of the checksum loop: [data[1] += data[i]]. *)
Definition checksum_add (d : list Z) (i : nat) : list Z :=
  <[1%nat := u8 (d !!! 1%nat + d !!! i)]> d.

(** [for (int i = 2; i < SERIAL_FRAME_SIZE; ++i) data[1] += data[i];] *)
Definition checksum_loop (d : list Z) : list Z :=
  foldl checksum_add d (seq 2 (Z.to_nat SERIAL_FRAME_SIZE - 2)).

Definition serial_send (f : serial_tx_frame) (tach voltage current : Z)
  : serial_tx_frame * bool :=
  if next_index f <? SERIAL_FRAME_SIZE then (f, false)
  else
    let d0 := <[0%nat := SERIAL_FRAME_HEADER]> (data f) in
    let d1 := memcpy_u16 d0 2 tach in
    let d2 := memcpy_u16 d1 4 voltage in
    let d3 := memcpy_u16 d2 6 current in
    let d4 := <[1%nat := 0]> d3 in
    let d5 := checksum_loop d4 in
    (mk_frame d5 0, true).

(** [ucsr0a] is the value read from the UART status register; the
    second component is the byte written to [UDR0], if any. *)
Definition serial_poll (f : serial_tx_frame) (ucsr0a : Z)
  : serial_tx_frame * option Z :=
  if next_index f >=? SERIAL_FRAME_SIZE then (f, None)
  else if Z.land ucsr0a (Z.shiftl 1 5) =? 0 then (f, None)
  else (mk_frame (data f) (u8 (next_index f + 1)),
        Some (data f !!! Z.to_nat (next_index f))).

(** The operations a caller can apply to the buffer. *)
Inductive serial_op :=
| OpSend (tach voltage current : Z)
| OpPoll (ucsr0a : Z).

Definition serial_apply (f : serial_tx_frame) (o : serial_op)
  : serial_tx_frame :=
  match o with
  | OpSend t v c => (serial_send f t v c).1
  | OpPoll u => (serial_poll f u).1
  end.

Definition serial_run (f : serial_tx_frame) (ops : list serial_op)
  : serial_tx_frame :=
  foldl serial_apply f ops.

(** The cursor is inside the frame or one past its end, and the array
    has its eight bytes. *)
Definition serial_inv (f : serial_tx_frame) : Prop :=
  0 <= next_index f <= SERIAL_FRAME_SIZE
  /\ length (data f) = Z.to_nat SERIAL_FRAME_SIZE.

(** The frame layout in the words of the specification:
    [header][checksum][tach_lo][tach_hi][volt_lo][volt_hi][curr_lo][curr_hi],
    the checksum being the 8-bit sum of the six payload bytes. *)
Definition frame_layout (tach voltage current : Z) : list Z :=
  let lo v := v mod 256 in
  let hi v := (v / 256) mod 256 in
  [SERIAL_FRAME_HEADER;
   (lo tach + hi tach + lo voltage + hi voltage + lo current + hi current)
     mod 256;
   lo tach; hi tach; lo voltage; hi voltage; lo current; hi current].

(** Receiver side, following the frame layout of the specification:
    three little-endian 16-bit fields at offsets 2, 4 and 6. *)
Definition decode_frame (d : list Z) : Z * Z * Z :=
  (d !!! 2%nat + 256 * d !!! 3%nat,
   d !!! 4%nat + 256 * d !!! 5%nat,
   d !!! 6%nat + 256 * d !!! 7%nat).

(** Receiver side: the 8-bit sum of bytes 2..7, computed independently
    of the transmit loop. *)
Definition payload_sum (d : list Z) : Z := u8 (zsum (drop 2 d)).

End Serial.

(** ** Main loop *)

Module Main.
Import Opto Edge Serial.

(** *** Period/timeout logic (the [if]/[else if] of the loop body) *)

Record timing := mk_timing {
  prev_opto_timestamp : Z;   (* uint16_t *)
  opto_timed_out : bool
}.

(** The two locals the block leaves for the publish step. *)
Record verdict := mk_verdict {
  need_publish : bool;
  tach : Z                   (* uint16_t *)
}.

Definition TIMEOUT_TICKS : Z := 50000.

(** [edge] is the result of [opto_detect_edge]; [timestamp] the timer
    count read before it.  Both locals start as [false] and [0]. *)
Definition track (t : timing) (timestamp : Z) (edge : bool)
  : timing * verdict :=
  if edge then
    if negb (opto_timed_out t)
    then (mk_timing timestamp (opto_timed_out t),
          mk_verdict true (u16 (timestamp - prev_opto_timestamp t)))
    else (mk_timing timestamp false, mk_verdict false 0)
  else if u16 (timestamp - prev_opto_timestamp t) >? TIMEOUT_TICKS
  then (mk_timing timestamp true, mk_verdict true 0)
  else (t, mk_verdict false 0).

(** The tracker driven by a sequence of (timestamp, edge) pairs; the
    verdicts are collected in order. *)
Fixpoint track_run (t : timing) (inputs : list (Z * bool))
  : timing * list verdict :=
  match inputs with
  | [] => (t, [])
  | (ts, e) :: rest =>
      let '(t1, v) := track t ts e in
      let '(t2, vs) := track_run t1 rest in
      (t2, v :: vs)
  end.

(** Iterations in which the detector reports no edge. *)
Definition no_edge (timestamps : list Z) : list (Z * bool) :=
  (fun ts => (ts, false)) <$> timestamps.

(** *** The whole loop *)

Record main_state := mk_main {
  frame : serial_tx_frame;
  edge : edge_state;
  tim : timing;
  failure_latch : bool;
  PORTB : Z;
  uart : list Z             (* bytes written to UDR0, oldest first *)
}.

(** [led_set]: the LED is bit 5 of [PORTB]. *)
Definition led_set (portb : Z) (on : bool) : Z :=
  if on then u8 (Z.lor portb (Z.shiftl 1 5))
  else u8 (Z.land portb (Z.lnot (Z.shiftl 1 5))).

Definition led_on (portb : Z) : bool := Z.testbit portb 5.

(** [wait_adc_poll_serial()]: one [serial_poll] per failed readiness
    test.  [status] lists the UART status values those calls read; that
    the list is finite is the assumption that the conversion ends. *)
Definition wait_adc_poll_serial (st : main_state) (status : list Z)
  : main_state :=
  foldl (fun s u =>
           let '(f, b) := serial_poll (frame s) u in
           mk_main f (edge s) (tim s) (failure_latch s) (PORTB s)
                   (uart s ++ from_option (fun x => [x]) [] b))
        st status.

(** What the hardware presents during one iteration of [while (1)]. *)
Record hw_input := mk_hw {
  wait0 : list Z;     (* polls of the wait at the top of the loop *)
  adch : Z;           (* adc_read(): uint8_t *)
  tcnt1 : Z;          (* timer_stamp(): uint16_t *)
  wait1 : list Z;     (* polls of the three waits of the publish step *)
  wait2 : list Z;
  adc_volt : Z;       (* ADC register at the voltage read *)
  wait3 : list Z;
  adc_curr : Z        (* ADC register at the current read *)
}.

Definition adc_read16 (adc : Z) : Z := Z.shiftr adc 6.

(** State at the first test of [while (1)]: [gpio_init] has written
    [PORTB = 0xFF], [serial_init] has marked the buffer idle, [t0] is the
    timer count read into [prev_opto_timestamp]. *)
Definition main_init (t0 : Z) : main_state :=
  mk_main (serial_init frame_zero) edge_init (mk_timing t0 true)
          false 255 [].

(** One iteration of the loop.  The second component is [None] when
    nothing was published and [Some success] otherwise. *)
Definition main_iter (st : main_state) (i : hw_input)
  : main_state * option bool :=
  let st0 := wait_adc_poll_serial st (wait0 i) in
  let sample := adch i in
  let timestamp := tcnt1 i in
  let '(e1, is_edge) := opto_detect_edge (edge st0) sample in
  let '(t1, v) := track (tim st0) timestamp is_edge in
  let st1 := mk_main (frame st0) e1 t1 (failure_latch st0) (PORTB st0)
                     (uart st0) in
  if need_publish v then
    let st2 := wait_adc_poll_serial st1 (wait1 i) in
    let st3 := wait_adc_poll_serial st2 (wait2 i) in
    let voltage := adc_read16 (adc_volt i) in
    let st4 := wait_adc_poll_serial st3 (wait3 i) in
    let current := adc_read16 (adc_curr i) in
    let '(f5, success) := serial_send (frame st4) (tach v) voltage current in
    let latch := if negb success then true else failure_latch st4 in
    (mk_main f5 (edge st4) (tim st4) latch (led_set (PORTB st4) latch)
             (uart st4), Some success)
  else (st1, None).

(** An iteration on a flat optical signal (sample 100) at timer count
    [ts]: [status] is what the polls of the first wait read, the other
    waits end at once, and the auxiliary channels read 700 and 300. *)
Definition flat_input (ts : Z) (status : list Z) : hw_input :=
  mk_hw status 100 ts [] [] (Z.shiftl 700 6) [] (Z.shiftl 300 6).

(** The loop run over a finite prefix of its iterations; the publish
    outcomes are collected in order. *)
Fixpoint main_run (st : main_state) (inputs : list hw_input)
  : main_state * list (option bool) :=
  match inputs with
  | [] => (st, [])
  | i :: rest =>
      let '(st1, o) := main_iter st i in
      let '(st2, os) := main_run st1 rest in
      (st2, o :: os)
  end.

End Main.

(** ** Traces of the serial buffer *)

Module Drain.
Import Serial.

(** The test [UCSR0A & (1 << 5)] of [serial_poll]. *)
Definition uart_ready (ucsr0a : Z) : bool :=
  negb (Z.land ucsr0a (Z.shiftl 1 5) =? 0).

(** Number of status readings that show the data register empty. *)
Definition ready_count (status : list Z) : nat :=
  length (filter (fun u => uart_ready u = true) status).

(** Consecutive calls of [serial_poll], one per status reading, with the
    bytes written to [UDR0] in order. *)
Fixpoint serial_polls (f : serial_tx_frame) (status : list Z)
  : serial_tx_frame * list Z :=
  match status with
  | [] => (f, [])
  | u :: rest =>
      let '(f1, b) := serial_poll f u in
      let '(f2, bs) := serial_polls f1 rest in
      (f2, from_option (fun x => [x]) [] b ++ bs)
  end.

(** A sequence of calls of [serial_send] and [serial_poll] with the bytes
    written to [UDR0] and the triples of the calls of [serial_send] that
    returned true, both in order. *)
Fixpoint serial_trace (f : serial_tx_frame) (ops : list serial_op)
  : serial_tx_frame * list Z * list (Z * Z * Z) :=
  match ops with
  | [] => (f, [], [])
  | OpSend t v c :: rest =>
      let '(f1, ok) := serial_send f t v c in
      let '(f2, out, acc) := serial_trace f1 rest in
      (f2, out, if ok then (t, v, c) :: acc else acc)
  | OpPoll u :: rest =>
      let '(f1, b) := serial_poll f u in
      let '(f2, out, acc) := serial_trace f1 rest in
      (f2, from_option (fun x => [x]) [] b ++ out, acc)
  end.

(** The bytes of the frame in the buffer that [serial_poll] has not yet
    written out. *)
Definition pending (f : serial_tx_frame) : list Z :=
  drop (Z.to_nat (next_index f)) (data f).

(** The byte stream of a list of frames sent back to back. *)
Definition frames_stream (sent : list (Z * Z * Z)) : list Z :=
  concat ((fun x => frame_layout x.1.1 x.1.2 x.2) <$> sent).

End Drain.

(** ** ADC channel selection: [adc_select_channel] *)

Module Adc.

Definition ADC_CHAN_OPTO : Z := 0.
Definition ADC_CHAN_CURR : Z := 6.
Definition ADC_CHAN_VOLT : Z := 7.

(** The value [adc_init] writes to [ADMUX]: AVcc reference (bit 6) and
    left-adjusted result (bit 5), channel 0. *)
Definition adc_init_admux : Z := Z.lor (Z.shiftl 1 6) (Z.shiftl 1 5).

(** [ADMUX = (ADMUX & 0xF0) | channel], as a function of the old register
    value; the assignment converts to [uint8_t]. *)
Definition adc_select_channel (admux channel : Z) : Z :=
  u8 (Z.lor (Z.land admux 240) channel).

End Adc.

(** ** Results of the detector over a run *)

Module Pipeline.
Import Edge Main.

(** The values returned by consecutive calls of [opto_detect_edge]. *)
Fixpoint edge_outputs (st : edge_state) (samples : list Z) : list bool :=
  match samples with
  | [] => []
  | x :: rest =>
      let '(st1, e) := opto_detect_edge st x in
      e :: edge_outputs st1 rest
  end.

(** What the period logic is fed over a run of the loop: the timer count
    of each iteration with the detector's result for its sample. *)
Definition tracker_inputs (st : main_state) (inputs : list hw_input)
  : list (Z * bool) :=
  zip (tcnt1 <$> inputs) (edge_outputs (edge st) (adch <$> inputs)).

(** Whether an iteration published. *)
Definition published (o : option bool) : bool :=
  match o with Some _ => true | None => false end.

End Pipeline.

(** * Proofs *)

Section Arith.

Lemma zsum_app l1 l2 : zsum (l1 ++ l2) = zsum l1 + zsum l2.
Proof. induction l1 as [|a l1 IH]; simpl; lia. Qed.

Lemma zsum_bounds l :
  Forall is_u8 l -> 0 <= zsum l <= 255 * Z.of_nat (length l).
Proof.
  induction 1 as [|a l Ha _ IH]; simpl; [lia|].
  unfold is_u8 in Ha. lia.
Qed.

Lemma lastn_short {A} n (l : list A) : (length l <= n)%nat -> lastn n l = l.
Proof.
  intros H. unfold lastn.
  by replace (length l - n)%nat with 0%nat by lia.
Qed.

Lemma lastn_length {A} n (l : list A) :
  length (lastn n l) = Nat.min n (length l).
Proof. unfold lastn. rewrite length_drop. lia. Qed.

Lemma lastn_snoc_full {A} n (l : list A) x :
  (n <= length l)%nat -> (0 < n)%nat ->
  lastn n (l ++ [x]) = drop 1 (lastn n l) ++ [x].
Proof.
  intros Hn Hpos. unfold lastn. rewrite length_app. simpl.
  rewrite drop_drop, drop_app_le by lia.
  f_equal. f_equal. lia.
Qed.

Lemma Forall_lastn {A} (P : A -> Prop) n l : Forall P l -> Forall P (lastn n l).
Proof. apply Forall_drop. Qed.

End Arith.

(** ** DC bias tracker *)

Section DcTracker.
Import Opto.

Lemma W_Z : Z.of_nat W = 1024.
Proof. reflexivity. Qed.

Lemma W_pos : (0 < W)%nat.
Proof. pose proof W_Z. lia. Qed.

Local Arguments W : simpl never.

Lemma take_S_insert (l : list Z) n x :
  (n < length l)%nat -> take (S n) (<[n := x]> l) = take n l ++ [x].
Proof.
  intros Hn.
  rewrite (take_S_r (<[n := x]> l) n x) by by apply list_lookup_insert_eq.
  by rewrite take_insert_ge.
Qed.

Lemma dc_init_inv : dc_inv [] dc_init.
Proof.
  split; done.
Qed.

(** Warm-up call: the array is not yet full. *)
Lemma dc_step_warm samples st x :
  dc_inv samples st -> Forall is_u8 samples -> is_u8 x ->
  (length samples < W)%nat ->
  opto_update_dc_signal st x =
    (mk_dc (<[length samples := x]> (hist st))
           (Z.of_nat (length samples) + 1) 0 (zsum samples + x),
     (zsum samples + x) / (Z.of_nat (length samples) + 1))
  /\ take (length samples) (hist st) = samples.
Proof.
  intros [Hlen Hring Hsum Hcnt Hidx Hidx0] Hs Hx Hlt.
  pose proof W_Z as HW. pose proof (zsum_bounds _ Hs) as Hb.
  rewrite lastn_short in Hring, Hsum by lia.
  rewrite Nat.min_r in Hcnt by lia.
  unfold ring in Hring. unfold opto_update_dc_signal.
  unfold OPTO_DC_HISTORY_LEN in *.
  destruct (Z.eqb_spec (num_samples st) 1024) as [E|E]; [lia|].
  rewrite Hcnt, Nat2Z.id in *. rewrite Hidx0 by lia. rewrite Hsum.
  unfold is_u8 in Hx.
  assert (Hn1 : u16 (Z.of_nat (length samples) + 1)
                = Z.of_nat (length samples) + 1).
  { unfold u16. apply Z.mod_small. lia. }
  assert (Hs1 : u32 (zsum samples + x) = zsum samples + x).
  { unfold u32. apply Z.mod_small. lia. }
  rewrite Hn1, Hs1. split; [|done].
  f_equal. unfold u8. apply Z.mod_small.
  split; [apply Z.div_pos; lia|].
  apply Z.div_lt_upper_bound; lia.
Qed.

(** Steady-state call: the entry at [index] is the oldest one. *)
Lemma dc_step_full samples st x :
  dc_inv samples st -> Forall is_u8 samples -> is_u8 x ->
  (W <= length samples)%nat ->
  exists h rest,
    lastn W samples = h :: rest
    /\ hist st !! Z.to_nat (index st) = Some h
    /\ rest = drop (S (Z.to_nat (index st))) (hist st)
                ++ take (Z.to_nat (index st)) (hist st)
    /\ opto_update_dc_signal st x =
         (mk_dc (<[Z.to_nat (index st) := x]> (hist st))
                OPTO_DC_HISTORY_LEN
                (if index st + 1 >=? OPTO_DC_HISTORY_LEN
                 then 0 else index st + 1)
                (zsum rest + x),
          (zsum rest + x) / OPTO_DC_HISTORY_LEN).
Proof.
  intros [Hlen Hring Hsum Hcnt Hidx Hidx0] Hs Hx Hge.
  pose proof W_Z as HW.
  rewrite Nat.min_l in Hcnt by lia.
  unfold ring in Hring. unfold opto_update_dc_signal.
  unfold OPTO_DC_HISTORY_LEN in *.
  destruct (Z.eqb_spec (num_samples st) 1024) as [E|E]; [|lia].
  set (i := Z.to_nat (index st)) in *.
  assert (Hi : (i < length (hist st))%nat) by lia.
  destruct (lookup_lt_is_Some_2 _ _ Hi) as [h Hh].
  rewrite (drop_S _ _ _ Hh) in Hring. simpl in Hring.
  exists h, (drop (S i) (hist st) ++ take i (hist st)).
  split; [done|]. split; [done|]. split; [done|].
  rewrite (list_lookup_total_correct _ _ _ Hh).
  pose proof (Forall_lastn is_u8 W _ Hs) as Hl.
  rewrite <- Hring in Hl.
  pose proof (Forall_inv Hl) as Hh8. pose proof (Forall_inv_tail Hl) as Hrest.
  pose proof (zsum_bounds _ Hrest) as Hb.
  assert (Hlr : length (drop (S i) (hist st) ++ take i (hist st))
                = (W - 1)%nat).
  { rewrite length_app, length_drop, length_take. lia. }
  rewrite Hlr in Hb.
  rewrite Hsum, <- Hring. simpl.
  set (r := zsum (drop (S i) (hist st) ++ take i (hist st))) in *.
  unfold is_u8 in Hx, Hh8.
  replace (u32 (h + r - h)) with r
    by (unfold u32; rewrite Z.mod_small; lia).
  replace (u32 (r + x)) with (r + x)
    by (unfold u32; rewrite Z.mod_small; lia).
  replace (u16 (index st + 1)) with (index st + 1)
    by (unfold u16; rewrite Z.mod_small; lia).
  f_equal; [by rewrite E|].
  unfold u8. apply Z.mod_small.
  split; [apply Z.div_pos; lia|].
  apply Z.div_lt_upper_bound; lia.
Qed.

Lemma dc_step_inv samples st x :
  dc_inv samples st -> Forall is_u8 samples -> is_u8 x ->
  dc_inv (samples ++ [x]) (opto_update_dc_signal st x).1.
Proof.
  intros Hinv Hs Hx. pose proof W_Z as HW.
  destruct (Nat.lt_ge_cases (length samples) W) as [Hlt|Hge].
  - destruct (dc_step_warm _ _ _ Hinv Hs Hx Hlt) as [-> Htake].
    destruct Hinv as [Hlen _ _ _ _ _]. cbn [fst].
    assert (Hsn : length (samples ++ [x]) = S (length samples))
      by (rewrite length_app; simpl; lia).
    assert (Hts : take (S (length samples))
                       (<[length samples := x]> (hist st)) = samples ++ [x]).
    { rewrite take_S_insert by lia. by rewrite Htake. }
    split; cbn [hist num_samples index sum].
    + by rewrite length_insert.
    + rewrite lastn_short by lia. unfold ring; cbn [hist num_samples index sum].
      unfold OPTO_DC_HISTORY_LEN.
      destruct (Z.eqb_spec (Z.of_nat (length samples) + 1) 1024) as [E|E].
      * change (Z.to_nat 0) with 0%nat. rewrite take_0, drop_0, app_nil_r.
        rewrite <- Hts. symmetry. apply take_ge. rewrite length_insert. lia.
      * by replace (Z.to_nat (Z.of_nat (length samples) + 1))
          with (S (length samples)) by lia.
    + rewrite lastn_short by lia. by rewrite zsum_app; simpl; lia.
    + rewrite Hsn. lia.
    + unfold OPTO_DC_HISTORY_LEN. lia.
    + done.
  - destruct (dc_step_full _ _ _ Hinv Hs Hx Hge)
      as (h & rest & Hlast & Hh & Hrest & ->).
    destruct Hinv as [Hlen _ _ _ Hidx _]. cbn [fst].
    unfold OPTO_DC_HISTORY_LEN in *.
    set (i := Z.to_nat (index st)) in *.
    assert (Hnew : lastn W (samples ++ [x]) = rest ++ [x]).
    { rewrite lastn_snoc_full by (pose proof W_pos; lia).
      by rewrite Hlast. }
    split; cbn [hist num_samples index sum].
    + by rewrite length_insert.
    + rewrite Hnew. unfold ring; cbn [hist num_samples index sum].
      unfold OPTO_DC_HISTORY_LEN.
      destruct (Z.geb_spec (index st + 1) 1024) as [E|E].
      * change (Z.to_nat 0) with 0%nat. rewrite take_0, drop_0, app_nil_r.
        rewrite insert_take_drop by lia.
        rewrite Hrest. rewrite (drop_ge (hist st) (S i)) by lia.
        by rewrite app_nil_l.
      * replace (Z.to_nat (index st + 1)) with (S i) by lia.
        rewrite drop_insert_lt by lia. rewrite take_S_insert by lia.
        by rewrite Hrest, app_assoc.
    + rewrite Hnew, zsum_app. simpl. lia.
    + rewrite length_app. change (length [x]) with 1%nat. lia.
    + unfold OPTO_DC_HISTORY_LEN.
      destruct (Z.geb_spec (index st + 1) 1024); lia.
    + rewrite length_app. change (length [x]) with 1%nat. lia.
Qed.

Lemma dc_run_inv samples :
  Forall is_u8 samples -> dc_inv samples (dc_run dc_init samples).
Proof.
  induction samples as [|x samples IH] using rev_ind; intros Hs.
  - apply dc_init_inv.
  - apply Forall_app in Hs as [Hs Hx].
    unfold dc_run. rewrite foldl_snoc.
    apply dc_step_inv; [by apply IH | done | by inversion Hx].
Qed.

(** C3. Warm-up: for a sequence of [N] samples with [N < W] (W = 1024),
    the [N]-th call of the tracker returns [floor (sum of the N samples /
    N)]; that call writes the sample behind the earlier ones in the
    ring, increments the sample counter and adds the sample to the
    running sum. *)
Theorem dc_warmup_average (samples : list Z) (x : Z) :
  Forall is_u8 (samples ++ [x]) ->
  (length (samples ++ [x]) < W)%nat ->
  let st := dc_run dc_init samples in
  let r := opto_update_dc_signal st x in
  r.2 = zsum (samples ++ [x]) / Z.of_nat (length (samples ++ [x]))
  /\ hist r.1 = <[length samples := x]> (hist st)
  /\ take (length (samples ++ [x])) (hist r.1) = samples ++ [x]
  /\ num_samples r.1 = num_samples st + 1
  /\ num_samples r.1 = Z.of_nat (length (samples ++ [x]))
  /\ sum r.1 = sum st + x.
Proof.
  intros Hall Hlen st r.
  apply Forall_app in Hall as [Hs Hx]. apply Forall_inv in Hx.
  assert (Hsn : length (samples ++ [x]) = S (length samples))
    by (rewrite length_app; simpl; lia).
  rewrite Hsn in *.
  pose proof (dc_run_inv _ Hs) as Hinv. fold st in Hinv.
  destruct (dc_step_warm _ _ _ Hinv Hs Hx ltac:(lia)) as [Hr Htake].
  subst r. rewrite Hr. cbn [fst snd hist num_samples sum].
  destruct Hinv as [Hl _ Hsum Hcnt _ _].
  rewrite lastn_short in Hsum by lia. rewrite Nat.min_r in Hcnt by lia.
  rewrite zsum_app. cbn [zsum].
  repeat split.
  - f_equal; lia.
  - rewrite take_S_insert by lia. by rewrite Htake.
  - lia.
  - lia.
  - lia.
Qed.

Lemma dc_warmup_average_witness :
  Forall is_u8 ([10; 20] ++ [33])
  /\ (length ([10; 20] ++ [33])%Z < W)%nat
  /\ (opto_update_dc_signal (dc_run dc_init [10; 20]) 33).2
     = zsum ([10; 20] ++ [33]) / Z.of_nat (length ([10; 20] ++ [33])).
Proof.
  assert (H1 : Forall is_u8 ([10; 20] ++ [33]))
    by (by apply (bool_decide_unpack _)).
  assert (H2 : (length ([10; 20] ++ [33])%Z < W)%nat)
    by (pose proof W_Z; simpl; lia).
  split; [exact H1|]. split; [exact H2|].
  exact (proj1 (dc_warmup_average [10; 20] 33 H1 H2)).
Defined.

(** C4. Steady state: for a sequence of [N] samples with [N >= W], the
    [N]-th call returns [floor (sum of the most recent W samples / W)];
    afterwards the ring holds exactly the most recent [W] samples and the
    running sum is the sum of its entries; once the ring is full a call
    overwrites, in place, the oldest entry and nothing else. *)
Theorem dc_steady_average (samples : list Z) (x : Z) :
  Forall is_u8 (samples ++ [x]) ->
  (W <= length (samples ++ [x]))%nat ->
  let st := dc_run dc_init samples in
  let r := opto_update_dc_signal st x in
  r.2 = zsum (lastn W (samples ++ [x])) / OPTO_DC_HISTORY_LEN
  /\ ring r.1 = lastn W (samples ++ [x])
  /\ length (ring r.1) = W
  /\ sum r.1 = zsum (ring r.1)
  /\ ((W <= length samples)%nat ->
      exists oldest rest,
        ring st = oldest :: rest
        /\ hist st !! Z.to_nat (index st) = Some oldest
        /\ hist r.1 = <[Z.to_nat (index st) := x]> (hist st)
        /\ ring r.1 = rest ++ [x]).
Proof.
  intros Hall Hlen st r. pose proof W_Z as HW.
  pose proof (dc_run_inv _ Hall) as Hinv'.
  unfold dc_run in Hinv'. rewrite foldl_snoc in Hinv'.
  fold (dc_run dc_init samples) in Hinv'. fold st in Hinv'. fold r in Hinv'.
  apply Forall_app in Hall as [Hs Hx]. apply Forall_inv in Hx.
  assert (Hsn : length (samples ++ [x]) = S (length samples))
    by (rewrite length_app; simpl; lia).
  pose proof (dc_run_inv _ Hs) as Hinv. fold st in Hinv.
  destruct Hinv' as [_ Hring' Hsum' _ _ _].
  split; [|split; [done|split; [|split; [congruence|]]]].
  - destruct (Nat.lt_ge_cases (length samples) W) as [Hlt|Hge].
    + destruct (dc_step_warm _ _ _ Hinv Hs Hx Hlt) as [Hr _].
      subst r. rewrite Hr. cbn [snd].
      rewrite lastn_short by lia. rewrite zsum_app. cbn [zsum].
      unfold OPTO_DC_HISTORY_LEN. f_equal; lia.
    + destruct (dc_step_full _ _ _ Hinv Hs Hx Hge)
        as (h & rest & Hlast & _ & _ & Hr).
      subst r. rewrite Hr. cbn [snd].
      rewrite lastn_snoc_full by (pose proof W_pos; lia).
      rewrite Hlast. cbn [drop]. rewrite drop_0, zsum_app. cbn [zsum].
      f_equal. lia.
  - rewrite Hring', lastn_length. lia.
  - intros Hge.
    destruct (dc_step_full _ _ _ Hinv Hs Hx Hge)
      as (h & rest & Hlast & Hh & _ & Hr).
    exists h, rest. destruct Hinv as [_ Hring _ _ _ _].
    split; [congruence|]. split; [done|].
    split; [subst r; by rewrite Hr|].
    rewrite Hring', lastn_snoc_full by (pose proof W_pos; lia).
    by rewrite Hlast.
Qed.

Lemma dc_steady_average_witness :
  Forall is_u8 (sawtooth 1500 ++ [201])
  /\ (W <= length (sawtooth 1500 ++ [201%Z]))%nat
  /\ (opto_update_dc_signal (dc_run dc_init (sawtooth 1500)) 201).2
     = zsum (lastn W (sawtooth 1500 ++ [201])) / OPTO_DC_HISTORY_LEN.
Proof.
  assert (H1 : Forall is_u8 (sawtooth 1500 ++ [201])).
  { apply (bool_decide_unpack _). vm_compute. exact I. }
  assert (H2 : (W <= length (sawtooth 1500 ++ [201%Z]))%nat).
  { apply Nat.leb_le. vm_compute. reflexivity. }
  split; [exact H1|]. split; [exact H2|].
  exact (proj1 (dc_steady_average (sawtooth 1500) 201 H1 H2)).
Defined.

(** C10. Numerical soundness: with 8-bit samples the running sum is at
    every call the exact sum of at most 1024 samples, so it stays within
    [0, 1024 * 255] and no 32-bit operation wraps (the subtraction of the
    evicted entry included); the returned byte is the full quotient of
    the sum by the sample count (1024 once the ring is full), which is at
    most 255, so the conversion to 8 bits loses nothing. *)
Theorem dc_no_overflow (samples : list Z) (x : Z) :
  Forall is_u8 (samples ++ [x]) ->
  let st := dc_run dc_init samples in
  let r := opto_update_dc_signal st x in
  sum r.1 = zsum (lastn W (samples ++ [x]))
  /\ 0 <= sum r.1 <= 1024 * 255
  /\ 1 <= num_samples r.1 <= 1024
  /\ (num_samples st = OPTO_DC_HISTORY_LEN ->
      0 <= sum st - hist st !!! Z.to_nat (index st)
      /\ sum r.1 = sum st - hist st !!! Z.to_nat (index st) + x)
  /\ (num_samples st <> OPTO_DC_HISTORY_LEN -> sum r.1 = sum st + x)
  /\ r.2 = sum r.1 / num_samples r.1
  /\ 0 <= r.2 <= 255.
Proof.
  intros Hall st r. pose proof W_Z as HW.
  pose proof (dc_run_inv _ Hall) as Hinv'.
  unfold dc_run in Hinv'. rewrite foldl_snoc in Hinv'.
  fold (dc_run dc_init samples) in Hinv'. fold st in Hinv'. fold r in Hinv'.
  pose proof (zsum_bounds _ (Forall_lastn is_u8 W _ Hall)) as Hb.
  rewrite lastn_length in Hb.
  apply Forall_app in Hall as [Hs Hx]. apply Forall_inv in Hx.
  assert (Hsn : length (samples ++ [x]) = S (length samples))
    by (rewrite length_app; simpl; lia).
  pose proof (dc_run_inv _ Hs) as Hinv. fold st in Hinv.
  destruct Hinv' as [_ _ Hsum' Hcnt' _ _].
  assert (Hq : r.2 = sum r.1 / num_samples r.1
               /\ (num_samples st = OPTO_DC_HISTORY_LEN ->
                   0 <= sum st - hist st !!! Z.to_nat (index st)
                   /\ sum r.1 = sum st - hist st !!! Z.to_nat (index st) + x)
               /\ (num_samples st <> OPTO_DC_HISTORY_LEN ->
                   sum r.1 = sum st + x)).
  { destruct (Nat.lt_ge_cases (length samples) W) as [Hlt|Hge].
    - destruct (dc_step_warm _ _ _ Hinv Hs Hx Hlt) as [Hr _].
      destruct Hinv as [_ _ Hsum Hcnt _ _].
      rewrite lastn_short in Hsum by lia. rewrite Nat.min_r in Hcnt by lia.
      subst r. rewrite Hr. cbn [fst snd sum num_samples].
      unfold OPTO_DC_HISTORY_LEN. split; [done|]. split; lia.
    - destruct (dc_step_full _ _ _ Hinv Hs Hx Hge)
        as (h & rest & Hlast & Hh & _ & Hr).
      destruct Hinv as [_ _ Hsum Hcnt _ _].
      rewrite Nat.min_l in Hcnt by lia.
      rewrite Hlast in Hsum. cbn [zsum] in Hsum.
      pose proof (Forall_lastn is_u8 W _ Hs) as Hl. rewrite Hlast in Hl.
      pose proof (zsum_bounds _ (Forall_inv_tail Hl)) as Hbr.
      subst r. rewrite Hr. cbn [fst snd sum num_samples].
      rewrite (list_lookup_total_correct _ _ _ Hh).
      unfold OPTO_DC_HISTORY_LEN. split; [done|]. split; lia. }
  destruct Hq as (Hq & Hfull & Hwarm).
  assert (Hn : 1 <= num_samples r.1 <= 1024) by lia.
  assert (Hsb : 0 <= sum r.1 <= 1024 * 255) by lia.
  split; [done|]. split; [done|]. split; [done|].
  split; [done|]. split; [done|]. split; [done|].
  rewrite Hq. split; [apply Z.div_pos; lia|].
  apply Z.lt_succ_r. apply Z.div_lt_upper_bound; [lia|].
  rewrite Hsum', Hcnt'. lia.
Qed.

Example dc_saturates :
  sum (dc_run dc_init (replicate (Z.to_nat 2000) 255)) = 261120.
Proof. vm_compute. reflexivity. Qed.

Lemma dc_no_overflow_witness :
  Forall is_u8 (replicate (Z.to_nat 2000) 255 ++ [255])
  /\ 0 <= sum (opto_update_dc_signal
                 (dc_run dc_init (replicate (Z.to_nat 2000) 255)) 255).1
       <= 1024 * 255.
Proof.
  assert (H1 : Forall is_u8 (replicate (Z.to_nat 2000) 255 ++ [255])).
  { apply (bool_decide_unpack _). vm_compute. exact I. }
  split; [exact H1|].
  exact (proj1 (proj2
           (dc_no_overflow (replicate (Z.to_nat 2000) 255) 255 H1))).
Defined.

End DcTracker.

(** ** Edge detector *)

Section EdgeDetector.
Import Opto Edge.

Lemma threshold_low : OPTO_THRESHOLD ÷ 4 = 7.
Proof. reflexivity. Qed.

(** The body of [opto_detect_edge] as one state update and one result. *)
Lemma detect_spec st sample :
  opto_detect_edge st sample =
    (mk_edge (opto_update_dc_signal (dc st) (u8 sample)).1
             (if in_peak st then negb (ac_of st sample <? 7)
              else ac_of st sample >? 30)
             (if in_peak st then PORTD st
              else if ac_of st sample >? 30 then rpm_out_set
                   else rpm_out_clr),
     negb (in_peak st) && (ac_of st sample >? 30)).
Proof.
  unfold opto_detect_edge, ac_of.
  destruct (opto_update_dc_signal (dc st) (u8 sample)) as [dc1 dcv].
  rewrite threshold_low. unfold OPTO_THRESHOLD. cbn [fst snd].
  destruct (in_peak st); cbn [negb andb].
  - by destruct (_ <? 7).
  - by destruct (_ >? 30).
Qed.

Lemma update_result_u8 st x : is_u8 (opto_update_dc_signal st x).2.
Proof.
  unfold opto_update_dc_signal, is_u8, u8.
  destruct (_ =? _); cbn [snd]; apply Z.mod_pos_bound; lia.
Qed.

(** For an 8-bit sample the signed 16-bit difference is exact. *)
Lemma ac_exact st sample :
  is_u8 sample ->
  ac_of st sample
  = sample - (opto_update_dc_signal (dc st) sample).2.
Proof.
  intros Hs. unfold ac_of.
  replace (u8 sample) with sample
    by (unfold u8; rewrite Z.mod_small; [done | exact Hs]).
  pose proof (update_result_u8 (dc st) sample) as Hd.
  unfold is_u8 in *. unfold s16. rewrite Z.mod_small; lia.
Qed.

(** Once in the peak state, the detector is idle again only after a call
    that saw [ac < 7] while in the peak state. *)
Lemma peak_left_by_low_sample mid : forall st,
  in_peak st = true -> in_peak (edge_run st mid) = false ->
  exists m1 z m2,
    mid = m1 ++ z :: m2
    /\ in_peak (edge_run st m1) = true
    /\ ac_of (edge_run st m1) z < 7
    /\ in_peak (edge_run st (m1 ++ [z])) = false.
Proof.
  induction mid as [|z mid IH]; intros st Hp Hidle.
  - simpl in Hidle. congruence.
  - destruct (in_peak (opto_detect_edge st z).1) eqn:Hz.
    + destruct (IH _ Hz Hidle) as (m1 & z' & m2 & -> & H1 & H2 & H3).
      exists (z :: m1), z', m2. by repeat split.
    + exists [], z, mid. repeat split; [done| |done].
      rewrite detect_spec, Hp in Hz. cbn [fst in_peak] in Hz.
      apply negb_false_iff in Hz. by apply Z.ltb_lt.
Qed.

(** C5. A call returns true exactly when the detector is idle
    ([in_peak = false]) and [ac = sample - bias > 30], and it is then in
    the peak state; in the peak state every call returns false and the
    detector becomes idle exactly when [ac < 7]; hence between two calls
    that report an edge there is a call that takes the detector from the
    peak state back to idle. *)
Theorem edge_detector_hysteresis (st : edge_state) (sample : Z) :
  let ac := ac_of st sample in
  let r := opto_detect_edge st sample in
  (is_u8 sample ->
   ac = sample - (opto_update_dc_signal (dc st) sample).2)
  /\ (r.2 = true <-> in_peak st = false /\ ac > 30)
  /\ (r.2 = true -> in_peak r.1 = true)
  /\ (in_peak st = false -> r.2 = false -> in_peak r.1 = false)
  /\ (in_peak st = true ->
      r.2 = false /\ (in_peak r.1 = false <-> ac < 7))
  /\ (forall mid y,
        r.2 = true ->
        (opto_detect_edge (edge_run r.1 mid) y).2 = true ->
        exists m1 z m2,
          mid = m1 ++ z :: m2
          /\ in_peak (edge_run r.1 m1) = true
          /\ ac_of (edge_run r.1 m1) z < 7
          /\ in_peak (edge_run r.1 (m1 ++ [z])) = false).
Proof.
  intros ac r.
  assert (Hr : r = opto_detect_edge st sample) by done.
  rewrite detect_spec in Hr. fold ac in Hr.
  assert (Hedge : r.2 = true <-> in_peak st = false /\ ac > 30).
  { rewrite Hr. cbn [snd]. rewrite andb_true_iff, negb_true_iff.
    rewrite Z.gtb_gt. reflexivity. }
  assert (Hpeak : r.2 = true -> in_peak r.1 = true).
  { intros H. apply Hedge in H as [Hi Hac]. rewrite Hr. cbn [fst in_peak].
    rewrite Hi. apply Z.gtb_gt. lia. }
  split; [apply ac_exact|]. split; [done|]. split; [done|].
  split; [|split].
  - intros Hi. rewrite Hr. cbn [fst snd in_peak]. by rewrite Hi.
  - intros Hi. rewrite Hr. cbn [fst snd in_peak]. rewrite Hi.
    split; [done|]. rewrite negb_false_iff. apply Z.ltb_lt.
  - intros mid y H1 H2.
    apply peak_left_by_low_sample; [by apply Hpeak|].
    rewrite detect_spec in H2. cbn [snd] in H2.
    apply andb_true_iff in H2 as [H2 _]. by apply negb_true_iff.
Qed.

Lemma edge_detector_hysteresis_witness :
  (opto_detect_edge (edge_run edge_init [10; 10; 10]) 200).2 = true
  /\ (opto_detect_edge
        (edge_run (opto_detect_edge (edge_run edge_init [10; 10; 10]) 200).1
                  [10]) 255).2 = true
  /\ exists m1 z m2,
       [10] = m1 ++ z :: m2
       /\ in_peak
            (edge_run
               (opto_detect_edge (edge_run edge_init [10; 10; 10]) 200).1
               m1) = true
       /\ ac_of
            (edge_run
               (opto_detect_edge (edge_run edge_init [10; 10; 10]) 200).1
               m1) z < 7
       /\ in_peak
            (edge_run
               (opto_detect_edge (edge_run edge_init [10; 10; 10]) 200).1
               (m1 ++ [z])) = false.
Proof.
  assert (H1 : (opto_detect_edge (edge_run edge_init [10; 10; 10]) 200).2
               = true) by (vm_compute; reflexivity).
  assert (H2 : (opto_detect_edge
                  (edge_run
                     (opto_detect_edge
                        (edge_run edge_init [10; 10; 10]) 200).1
                     [10]) 255).2 = true) by (vm_compute; reflexivity).
  split; [exact H1|]. split; [exact H2|].
  exact (proj2 (proj2 (proj2 (proj2 (proj2
           (edge_detector_hysteresis (edge_run edge_init [10; 10; 10]) 200)))))
           [10] 255 H1 H2).
Defined.

(** A sample that stays high reports one edge only. *)
Example one_edge_per_excursion :
  (fun st => [(opto_detect_edge st 200).2;
              (opto_detect_edge (edge_run st [200]) 200).2;
              (opto_detect_edge (edge_run st [200; 200]) 255).2;
              (opto_detect_edge (edge_run st [200; 200; 255]) 10).2;
              (opto_detect_edge (edge_run st [200; 200; 255; 10]) 255).2])
    (edge_run edge_init [10; 10; 10])
  = [true; false; false; false; true].
Proof. vm_compute. reflexivity. Qed.

End EdgeDetector.

(** ** Serial frame buffer *)

Section SerialFrame.
Import Serial.

Lemma frame_size : SERIAL_FRAME_SIZE = 8.
Proof. reflexivity. Qed.

(** The six wrapping additions of the checksum loop amount to one
    reduction of the exact sum. *)
Lemma checksum_fold a b c d e f :
  ((((((0 + a) mod 256 + b) mod 256 + c) mod 256 + d) mod 256 + e) mod 256
   + f) mod 256
  = (a + b + c + d + e + f) mod 256.
Proof. Z.div_mod_to_equations. lia. Qed.

(** [serial_send] on a buffer that is still draining. *)
Lemma serial_send_busy f tach voltage current :
  next_index f < SERIAL_FRAME_SIZE ->
  serial_send f tach voltage current = (f, false).
Proof.
  intros Hlt. unfold serial_send.
  by destruct (Z.ltb_spec (next_index f) SERIAL_FRAME_SIZE); [|lia].
Qed.

(** What a successful [serial_send] leaves in the buffer. *)
Lemma serial_send_layout f tach voltage current :
  length (data f) = Z.to_nat SERIAL_FRAME_SIZE ->
  SERIAL_FRAME_SIZE <= next_index f ->
  serial_send f tach voltage current
  = (mk_frame (frame_layout tach voltage current) 0, true).
Proof.
  intros Hlen Hidx. unfold serial_send. rewrite frame_size in *.
  destruct (Z.ltb_spec (next_index f) 8) as [?|_]; [lia|].
  destruct (data f) as [|b0 [|b1 [|b2 [|b3 [|b4 [|b5 [|b6 [|b7 [|? ?]]]]]]]]];
    try discriminate Hlen.
  unfold checksum_loop, checksum_add, memcpy_u16, frame_layout.
  rewrite frame_size. change (Z.to_nat 8 - 2)%nat with 6%nat.
  unfold u8. cbn.
  by rewrite checksum_fold.
Qed.

Lemma u16_split v : is_u16 v -> v mod 256 + 256 * ((v / 256) mod 256) = v.
Proof.
  intros Hv. unfold is_u16 in Hv.
  rewrite (Z.mod_small (v / 256)).
  - pose proof (Z.div_mod v 256). lia.
  - split; [apply Z.div_pos; lia | apply Z.div_lt_upper_bound; lia].
Qed.

(** C6. A successful frame load leaves exactly the eight bytes
    [0xFA, checksum, tach_lo, tach_hi, volt_lo, volt_hi, curr_lo,
    curr_hi], the 16-bit fields little-endian and the checksum the 8-bit
    wrapping sum of bytes 2..7; the sum a receiver computes over bytes
    2..7 equals the stored checksum and decoding the bytes gives back the
    triple that was sent. *)
Theorem serial_send_roundtrip (f : serial_tx_frame)
    (tach voltage current : Z) :
  length (data f) = Z.to_nat SERIAL_FRAME_SIZE ->
  is_u16 tach -> is_u16 voltage -> is_u16 current ->
  (serial_send f tach voltage current).2 = true ->
  let d := data (serial_send f tach voltage current).1 in
  d = frame_layout tach voltage current
  /\ length d = 8%nat
  /\ d !!! 0%nat = 250
  /\ d !!! 1%nat = payload_sum d
  /\ decode_frame d = (tach, voltage, current).
Proof.
  intros Hlen Ht Hv Hc Hok d.
  assert (Hidx : SERIAL_FRAME_SIZE <= next_index f).
  { unfold serial_send in Hok.
    destruct (Z.ltb_spec (next_index f) SERIAL_FRAME_SIZE); [done | lia]. }
  subst d. rewrite serial_send_layout by done. cbn [fst data].
  split; [done|]. split; [done|]. split; [done|]. split.
  - unfold frame_layout, payload_sum, u8. cbn.
    f_equal. lia.
  - unfold frame_layout, decode_frame. cbn.
    by rewrite !u16_split.
Qed.

Lemma serial_send_roundtrip_witness :
  length (data (serial_init frame_zero)) = Z.to_nat SERIAL_FRAME_SIZE
  /\ is_u16 500 /\ is_u16 12345 /\ is_u16 1023
  /\ (serial_send (serial_init frame_zero) 500 12345 1023).2 = true
  /\ decode_frame
       (data (serial_send (serial_init frame_zero) 500 12345 1023).1)
     = (500, 12345, 1023).
Proof.
  assert (H0 : length (data (serial_init frame_zero))
               = Z.to_nat SERIAL_FRAME_SIZE) by reflexivity.
  assert (H1 : is_u16 500) by (unfold is_u16; lia).
  assert (H2 : is_u16 12345) by (unfold is_u16; lia).
  assert (H3 : is_u16 1023) by (unfold is_u16; lia).
  assert (H4 : (serial_send (serial_init frame_zero) 500 12345 1023).2
               = true) by reflexivity.
  repeat (split; [assumption|]).
  exact (proj2 (proj2 (proj2 (proj2
    (serial_send_roundtrip (serial_init frame_zero) 500 12345 1023
       H0 H1 H2 H3 H4))))).
Defined.

Example frame_bytes_500 :
  data (serial_send (serial_init frame_zero) 500 12345 1023).1
  = [250; 96; 244; 1; 57; 48; 255; 3].
Proof. reflexivity. Qed.

(** C7. While a frame is draining ([next_index < SERIAL_FRAME_SIZE]) a
    load returns false and changes neither the eight bytes nor the
    cursor; otherwise it returns true, fills the buffer with the frame,
    checksum included, and resets the cursor to 0. *)
Theorem serial_send_backpressure (f : serial_tx_frame)
    (tach voltage current : Z) :
  length (data f) = Z.to_nat SERIAL_FRAME_SIZE ->
  (next_index f < SERIAL_FRAME_SIZE ->
   serial_send f tach voltage current = (f, false))
  /\ (SERIAL_FRAME_SIZE <= next_index f ->
      (serial_send f tach voltage current).2 = true
      /\ data (serial_send f tach voltage current).1
         = frame_layout tach voltage current
      /\ next_index (serial_send f tach voltage current).1 = 0).
Proof.
  intros Hlen. split.
  - apply serial_send_busy.
  - intros Hge. by rewrite serial_send_layout.
Qed.

Lemma serial_send_backpressure_witness :
  length (data (mk_frame [250; 96; 244; 1; 57; 48; 255; 3] 3))
  = Z.to_nat SERIAL_FRAME_SIZE
  /\ next_index (mk_frame [250; 96; 244; 1; 57; 48; 255; 3] 3)
     < SERIAL_FRAME_SIZE
  /\ serial_send (mk_frame [250; 96; 244; 1; 57; 48; 255; 3] 3) 7 8 9
     = (mk_frame [250; 96; 244; 1; 57; 48; 255; 3] 3, false).
Proof.
  assert (H0 : length (data (mk_frame [250; 96; 244; 1; 57; 48; 255; 3] 3))
               = Z.to_nat SERIAL_FRAME_SIZE) by reflexivity.
  assert (H1 : next_index (mk_frame [250; 96; 244; 1; 57; 48; 255; 3] 3)
               < SERIAL_FRAME_SIZE) by reflexivity.
  split; [exact H0|]. split; [exact H1|].
  exact (proj1 (serial_send_backpressure
                  (mk_frame [250; 96; 244; 1; 57; 48; 255; 3] 3) 7 8 9 H0)
               H1).
Defined.

Lemma serial_init_inv : serial_inv (serial_init frame_zero).
Proof. split; [by vm_compute | reflexivity]. Qed.

Lemma serial_send_inv f t v c :
  serial_inv f -> serial_inv (serial_send f t v c).1.
Proof.
  intros [Hidx Hlen].
  destruct (Z.lt_ge_cases (next_index f) SERIAL_FRAME_SIZE) as [Hlt|Hge].
  - by rewrite serial_send_busy.
  - rewrite serial_send_layout by done.
    split; [by vm_compute | reflexivity].
Qed.

(** A poll either leaves the buffer alone or emits the byte under the
    cursor and moves the cursor one place. *)
Lemma serial_poll_cases f u :
  serial_inv f ->
  serial_poll f u = (f, None)
  \/ exists b,
       next_index f < SERIAL_FRAME_SIZE
       /\ data f !! Z.to_nat (next_index f) = Some b
       /\ serial_poll f u = (mk_frame (data f) (next_index f + 1), Some b).
Proof.
  intros [Hidx Hlen]. unfold serial_poll. rewrite frame_size in *.
  destruct (Z.geb_spec (next_index f) 8) as [Hge|Hlt]; [by left|].
  destruct (Z.land u (Z.shiftl 1 5) =? 0); [by left|]. right.
  assert (Hi : (Z.to_nat (next_index f) < length (data f))%nat) by lia.
  destruct (lookup_lt_is_Some_2 _ _ Hi) as [b Hb].
  exists b. split; [lia|]. split; [done|].
  rewrite (list_lookup_total_correct _ _ _ Hb).
  unfold u8. rewrite Z.mod_small by lia. done.
Qed.

Lemma serial_poll_inv f u : serial_inv f -> serial_inv (serial_poll f u).1.
Proof.
  intros Hinv.
  destruct (serial_poll_cases f u Hinv) as [->|(b & Hlt & _ & ->)];
    [done|].
  destruct Hinv as [Hidx Hlen]. split; cbn [fst data next_index]; [lia|done].
Qed.

Lemma serial_run_inv ops f : serial_inv f -> serial_inv (serial_run f ops).
Proof.
  revert f. induction ops as [|o ops IH]; intros f Hinv; [done|].
  apply IH. destruct o; [by apply serial_send_inv | by apply serial_poll_inv].
Qed.

(** C9. After [serial_init] and after any sequence of calls of
    [serial_send] and [serial_poll] the cursor [next_index] is at most
    [SERIAL_FRAME_SIZE] (8); a poll that emits a byte reads
    [data[next_index]] with [next_index < 8], inside the array, and a
    poll moves the cursor by at most one. *)
Theorem serial_cursor_bounded (ops : list serial_op) :
  let f := serial_run (serial_init frame_zero) ops in
  0 <= next_index f <= SERIAL_FRAME_SIZE
  /\ length (data f) = 8%nat
  /\ forall u,
       let r := serial_poll f u in
       (forall b, r.2 = Some b ->
                  next_index f < SERIAL_FRAME_SIZE
                  /\ data f !! Z.to_nat (next_index f) = Some b
                  /\ next_index r.1 = next_index f + 1)
       /\ (r.2 = None -> r.1 = f)
       /\ next_index f <= next_index r.1 <= next_index f + 1
       /\ next_index r.1 <= SERIAL_FRAME_SIZE.
Proof.
  intros f.
  assert (Hinv : serial_inv f) by apply serial_run_inv, serial_init_inv.
  split; [apply Hinv|]. split; [apply Hinv|]. intros u r.
  pose proof (serial_poll_inv f u Hinv) as [Hidx' _]. fold r in Hidx'.
  destruct (serial_poll_cases f u Hinv) as [Hr|(b & Hlt & Hb & Hr)];
    fold r in Hr; rewrite Hr in *; cbn [fst snd next_index] in *.
  - split; [done|]. split; [done|]. lia.
  - split; [|split; [done | lia]].
    intros b' [= <-]. done.
Qed.

Example drain_whole_frame :
  next_index
    (serial_run (serial_init frame_zero)
       (OpSend 500 12345 1023 :: replicate 20 (OpPoll 32))) = 8.
Proof. reflexivity. Qed.

End SerialFrame.

(** ** Period and timeout logic *)

Section Tracker.
Import Main.

(** A no-edge step that publishes nothing leaves the timing state as it
    was. *)
Lemma track_quiet t ts :
  need_publish (track t ts false).2 = false -> (track t ts false).1 = t.
Proof.
  unfold track. by destruct (_ >? _).
Qed.

Lemma track_run_quiet gaps : forall t,
  Forall (fun v => need_publish v = false) (track_run t (no_edge gaps)).2 ->
  (track_run t (no_edge gaps)).1 = t.
Proof.
  induction gaps as [|ts gaps IH]; intros t Hq; [done|].
  cbn [no_edge fmap list_fmap track_run] in *.
  fold (no_edge gaps) in *.
  destruct (track t ts false) as [t1 v] eqn:E1.
  destruct (track_run t1 (no_edge gaps)) as [t2 vs] eqn:E2.
  cbn [fst snd] in *. inversion Hq as [|? ? Hv Hvs]; subst.
  pose proof (track_quiet t ts) as Ht. rewrite E1 in Ht.
  cbn [fst snd] in Ht. rewrite Ht in E2 by done.
  specialize (IH t). rewrite E2 in IH. by apply IH.
Qed.

(** C1, as the code has it.  In a step without an edge a stall event
    (publish with period 0, [opto_timed_out] set, [prev_opto_timestamp]
    set to the current timestamp) occurs exactly when the 16-bit wrapped
    difference [timestamp - prev_opto_timestamp] exceeds 50000, whether
    or not the tracker is already timed out; otherwise the step changes
    nothing.  Consequently, in a run without edges, after a stall event
    at [ts] the next stall event comes at the first timestamp whose
    wrapped distance from [ts] exceeds 50000. *)
Theorem track_stall_event (t : timing) (ts : Z) :
  let r := track t ts false in
  (need_publish r.2 = true
   <-> u16 (ts - prev_opto_timestamp t) > TIMEOUT_TICKS)
  /\ (need_publish r.2 = true ->
      r = (mk_timing ts true, mk_verdict true 0))
  /\ (need_publish r.2 = false ->
      r = (t, mk_verdict false 0))
  /\ (forall gaps ts',
        need_publish r.2 = true ->
        Forall (fun v => need_publish v = false)
               (track_run r.1 (no_edge gaps)).2 ->
        let r' := track (track_run r.1 (no_edge gaps)).1 ts' false in
        need_publish r'.2 = true <-> u16 (ts' - ts) > TIMEOUT_TICKS).
Proof.
  intros r.
  assert (Hr : r = track t ts false) by done. unfold track in Hr.
  destruct (Z.gtb_spec (u16 (ts - prev_opto_timestamp t)) TIMEOUT_TICKS)
    as [Hgt|Hle]; rewrite Hr; cbn [fst snd need_publish].
  - split; [split; [lia|done]|]. split; [done|]. split; [done|].
    intros gaps ts' _ Hq.
    rewrite (track_run_quiet gaps _ Hq).
    unfold track. cbn [prev_opto_timestamp].
    destruct (Z.gtb_spec (u16 (ts' - ts)) TIMEOUT_TICKS);
      cbn [snd need_publish]; split; (done || lia).
  - split; [split; [done|lia]|]. split; [done|]. split; [done|].
    intros gaps ts' Hf. done.
Qed.

(** The tracker publishes a stall event although it is already timed
    out, and publishes a second stall event in the same gap. *)
Lemma track_stall_repeats :
  track (mk_timing 0 true) 50001 false
  = (mk_timing 50001 true, mk_verdict true 0)
  /\ (track_run (mk_timing 0 false) (no_edge [50001; 34466])).2
     = [mk_verdict true 0; mk_verdict true 0]
  /\ ~ (forall t ts,
          need_publish (track t ts false).2 = true ->
          u16 (ts - prev_opto_timestamp t) > TIMEOUT_TICKS
          /\ opto_timed_out t = false).
Proof.
  split; [reflexivity|]. split; [reflexivity|].
  intros H. specialize (H (mk_timing 0 true) 50001 eq_refl).
  destruct H as [_ H]. discriminate H.
Qed.

(** C2. In a step with an edge: when the tracker is not timed out the
    published period is the 16-bit wrapped difference [timestamp -
    prev_opto_timestamp]; when it is timed out the flag is cleared and
    nothing is published, and the next edge (no stall event in between)
    is published again, so one edge is absorbed; in both cases
    [prev_opto_timestamp] becomes the current timestamp. *)
Theorem track_edge_event (t : timing) (ts : Z) :
  let r := track t ts true in
  prev_opto_timestamp r.1 = ts
  /\ opto_timed_out r.1 = false
  /\ (opto_timed_out t = false ->
      r.2 = mk_verdict true (u16 (ts - prev_opto_timestamp t)))
  /\ (opto_timed_out t = true -> r.2 = mk_verdict false 0)
  /\ (forall gaps ts',
        Forall (fun v => need_publish v = false)
               (track_run r.1 (no_edge gaps)).2 ->
        (track (track_run r.1 (no_edge gaps)).1 ts' true).2
        = mk_verdict true (u16 (ts' - ts))).
Proof.
  intros r.
  assert (Hr : r = track t ts true) by done. unfold track in Hr.
  assert (H1 : prev_opto_timestamp r.1 = ts)
    by (rewrite Hr; by destruct (opto_timed_out t)).
  assert (H2 : opto_timed_out r.1 = false)
    by (rewrite Hr; by destruct (opto_timed_out t)).
  split; [done|]. split; [done|].
  split; [|split].
  - intros Ht. rewrite Hr, Ht. done.
  - intros Ht. rewrite Hr, Ht. done.
  - intros gaps ts' Hq. rewrite (track_run_quiet gaps _ Hq).
    unfold track at 1. by rewrite H2, H1.
Qed.

Lemma track_stall_event_witness :
  need_publish (track (mk_timing 0 true) 50001 false).2 = true
  /\ Forall (fun v => need_publish v = false)
            (track_run (track (mk_timing 0 true) 50001 false).1
                       (no_edge [60000])).2
  /\ (need_publish
        (track (track_run (track (mk_timing 0 true) 50001 false).1
                          (no_edge [60000])).1 34466 false).2 = true
      <-> u16 (34466 - 50001) > TIMEOUT_TICKS).
Proof.
  assert (H1 : need_publish (track (mk_timing 0 true) 50001 false).2 = true)
    by reflexivity.
  assert (H2 : Forall (fun v => need_publish v = false)
                 (track_run (track (mk_timing 0 true) 50001 false).1
                            (no_edge [60000])).2)
    by (repeat constructor).
  split; [exact H1|]. split; [exact H2|].
  exact (proj2 (proj2 (proj2
           (track_stall_event (mk_timing 0 true) 50001))) [60000] 34466 H1 H2).
Defined.

Lemma track_edge_event_witness :
  Forall (fun v => need_publish v = false)
         (track_run (track (mk_timing 0 true) 1000 true).1
                    (no_edge [1200])).2
  /\ (track (track_run (track (mk_timing 0 true) 1000 true).1
                       (no_edge [1200])).1 1500 true).2
     = mk_verdict true (u16 (1500 - 1000)).
Proof.
  assert (H : Forall (fun v => need_publish v = false)
                (track_run (track (mk_timing 0 true) 1000 true).1
                           (no_edge [1200])).2)
    by (repeat constructor).
  split; [exact H|].
  exact (proj2 (proj2 (proj2 (proj2
           (track_edge_event (mk_timing 0 true) 1000)))) [1200] 1500 H).
Defined.

Example two_edges_period :
  (track_run (mk_timing 0 false) [(1000, true); (1200, false); (1500, true)]).2
  = [mk_verdict true 1000; mk_verdict false 0; mk_verdict true 500].
Proof. reflexivity. Qed.

Example period_wraps :
  (track (mk_timing 65000 false) 464 true).2 = mk_verdict true 1000.
Proof. reflexivity. Qed.

End Tracker.

(** ** Main loop: the failure latch *)

Section FailureLatch.
Import Opto Edge Serial Main.

(** The indicator bit after [led_set] is the argument. *)
Lemma led_set_on portb on : led_on (led_set portb on) = on.
Proof.
  unfold led_on, led_set, u8. change 256 with (2 ^ 8).
  destruct on; rewrite Z.mod_pow2_bits_low by lia.
  - rewrite Z.lor_spec. change (Z.testbit (Z.shiftl 1 5) 5) with true.
    apply orb_true_r.
  - rewrite Z.land_spec, Z.lnot_spec by lia.
    change (Z.testbit (Z.shiftl 1 5) 5) with true. apply andb_false_r.
Qed.

(** Waiting for the converter touches the frame buffer and the UART
    only. *)
Lemma wait_keeps status : forall st,
  let st' := wait_adc_poll_serial st status in
  failure_latch st' = failure_latch st /\ PORTB st' = PORTB st
  /\ edge st' = edge st /\ tim st' = tim st.
Proof.
  induction status as [|u status IH]; intros st; [done|].
  cbn zeta in *. unfold wait_adc_poll_serial in *. cbn [foldl].
  destruct (serial_poll (frame st) u) as [f b].
  match goal with |- context [foldl _ ?s status] =>
    destruct (IH s) as (H1 & H2 & H3 & H4) end.
  by rewrite H1, H2, H3, H4.
Qed.

Lemma main_iter_latch st i :
  let r := main_iter st i in
  (failure_latch st = true -> failure_latch r.1 = true)
  /\ (r.2 = Some false -> failure_latch r.1 = true)
  /\ (r.2 <> None -> led_on (PORTB r.1) = failure_latch r.1).
Proof.
  unfold main_iter.
  pose proof (wait_keeps (wait0 i) st) as (L0 & _).
  set (st0 := wait_adc_poll_serial st (wait0 i)) in *.
  destruct (opto_detect_edge (edge st0) (adch i)) as [e1 is_edge].
  destruct (track (tim st0) (tcnt1 i) is_edge) as [t1 v].
  set (st1 := mk_main _ _ _ _ _ _).
  destruct (need_publish v).
  - pose proof (wait_keeps (wait1 i) st1) as (L1 & _).
    set (st2 := wait_adc_poll_serial st1 (wait1 i)) in *.
    pose proof (wait_keeps (wait2 i) st2) as (L2 & _).
    set (st3 := wait_adc_poll_serial st2 (wait2 i)) in *.
    pose proof (wait_keeps (wait3 i) st3) as (L3 & _).
    set (st4 := wait_adc_poll_serial st3 (wait3 i)) in *.
    assert (L : failure_latch st4 = failure_latch st)
      by (rewrite L3, L2, L1; exact L0).
    destruct (serial_send _ _ _ _) as [f5 success].
    cbn [fst snd failure_latch PORTB]. rewrite led_set_on, L.
    split; [|split; [|done]].
    + intros ->. by destruct success.
    + by intros [= ->].
  - cbn [fst snd]. split; [|done]. intros H. subst st1. cbn. congruence.
Qed.

Lemma main_run_latch inputs : forall st,
  failure_latch st = true \/ In (Some false) (main_run st inputs).2 ->
  failure_latch (main_run st inputs).1 = true.
Proof.
  induction inputs as [|i inputs IH]; intros st H.
  - cbn in *. by destruct H.
  - cbn [main_run] in *.
    pose proof (main_iter_latch st i) as (Hmono & Hfail & _).
    destruct (main_iter st i) as [st1 o].
    specialize (IH st1).
    destruct (main_run st1 inputs) as [st2 os].
    cbn [fst snd] in *. apply IH.
    destruct H as [H|[H|H]]; [left; auto | left; auto | by right].
Qed.

(** C8. The failure latch is sticky: if it is set, or a frame load has
    failed in some earlier iteration, it is set after any further
    iterations; no iteration clears it, a failed load sets it, and every
    iteration that publishes drives the indicator bit with the latch, so
    from the first dropped frame on the indicator is on at every publish
    step. *)
Theorem failure_latch_sticky (st : main_state) (inputs : list hw_input)
    (i : hw_input) :
  let s := (main_run st inputs).1 in
  let r := main_iter s i in
  (failure_latch st = true \/ In (Some false) (main_run st inputs).2 ->
   failure_latch s = true)
  /\ (failure_latch s = true -> failure_latch r.1 = true)
  /\ (r.2 = Some false -> failure_latch r.1 = true)
  /\ (r.2 <> None -> led_on (PORTB r.1) = failure_latch r.1)
  /\ (failure_latch s = true -> r.2 <> None -> led_on (PORTB r.1) = true).
Proof.
  intros s r.
  pose proof (main_iter_latch s i) as (Hmono & Hfail & Hled).
  fold r in Hmono, Hfail, Hled.
  split; [apply main_run_latch|]. split; [done|]. split; [done|].
  split; [done|]. intros Hs Hp. rewrite Hled by done. by apply Hmono.
Qed.

Lemma failure_latch_sticky_witness :
  In (Some false)
     (main_run (main_init 0)
               [flat_input 50001 []; flat_input 34466 [32; 32; 0]]).2
  /\ failure_latch
       (main_run (main_init 0)
                 [flat_input 50001 []; flat_input 34466 [32; 32; 0]]).1
     = true.
Proof.
  assert (H : In (Some false)
                (main_run (main_init 0)
                   [flat_input 50001 []; flat_input 34466 [32; 32; 0]]).2)
    by (vm_compute; right; left; reflexivity).
  split; [exact H|].
  exact (proj1 (failure_latch_sticky (main_init 0)
                  [flat_input 50001 []; flat_input 34466 [32; 32; 0]]
                  (flat_input 0 []))
               (or_intror H)).
Defined.

(** A stalled rotor: the first stall frame is loaded, the second stall
    event comes while two of its bytes have gone out and is dropped. *)
Example dropped_frame_scenario :
  (fun r => (r.2, frame r.1, failure_latch r.1, led_on (PORTB r.1),
             uart r.1))
    (main_run (main_init 0)
              [flat_input 50001 []; flat_input 34466 [32; 32; 0]])
  = ([Some true; Some false],
     mk_frame [250; 235; 0; 0; 188; 2; 44; 1] 2, true, true, [250; 235]).
Proof. vm_compute. reflexivity. Qed.

(** Before the first publish the indicator is on although no frame was
    dropped; the first successful publish turns it off. *)
Example led_before_first_publish :
  led_on (PORTB (main_init 0)) = true
  /\ led_on (PORTB (main_iter (main_init 0) (flat_input 50001 [])).1) = false.
Proof. split; vm_compute; reflexivity. Qed.

End FailureLatch.


(** ** Serial frame buffer: draining *)

Section SerialDrain.
Import Serial Drain.

Lemma frame_eta f : mk_frame (data f) (next_index f) = f.
Proof. by destruct f. Qed.

Lemma serial_poll_idle f u :
  SERIAL_FRAME_SIZE <= next_index f \/ uart_ready u = false ->
  serial_poll f u = (f, None).
Proof.
  intros H. unfold serial_poll, uart_ready in *.
  destruct (Z.geb_spec (next_index f) SERIAL_FRAME_SIZE) as [|Hlt]; [done|].
  destruct H as [H|H]; [lia|].
  apply negb_false_iff in H. by rewrite H.
Qed.

Lemma serial_poll_ready f u :
  serial_inv f -> next_index f < SERIAL_FRAME_SIZE -> uart_ready u = true ->
  exists b,
    data f !! Z.to_nat (next_index f) = Some b
    /\ serial_poll f u = (mk_frame (data f) (next_index f + 1), Some b).
Proof.
  intros Hinv Hlt Hu.
  destruct (serial_poll_cases f u Hinv) as [Hr|(b & _ & Hb & Hr)].
  - exfalso. unfold serial_poll, uart_ready in *.
    destruct (Z.geb_spec (next_index f) SERIAL_FRAME_SIZE); [lia|].
    apply negb_true_iff in Hu. rewrite Hu in Hr. discriminate Hr.
  - by exists b.
Qed.

Lemma ready_count_cons u status :
  ready_count (u :: status)
  = ((if uart_ready u then 1 else 0) + ready_count status)%nat.
Proof.
  unfold ready_count. rewrite filter_cons.
  destruct (decide (uart_ready u = true)) as [->|Hn]; [done|].
  by destruct (uart_ready u).
Qed.

(** Polling writes out the pending bytes in order, one per reading that
    shows the UART ready, and stops at the end of the frame. *)
Lemma polls_drain status : forall f,
  serial_inv f ->
  serial_polls f status
  = (mk_frame (data f)
       (next_index f
        + Z.of_nat (Nat.min (length (pending f)) (ready_count status))),
     take (Nat.min (length (pending f)) (ready_count status)) (pending f)).
Proof.
  induction status as [|u status IH]; intros f Hinv.
  - cbn [serial_polls]. unfold ready_count. cbn.
    rewrite Nat.min_0_r, Z.add_0_r, frame_eta. done.
  - pose proof Hinv as [Hidx Hlen]. rewrite frame_size in *.
    assert (Hp : length (pending f) = (8 - Z.to_nat (next_index f))%nat).
    { unfold pending. rewrite length_drop. lia. }
    cbn [serial_polls]. rewrite ready_count_cons.
    destruct (uart_ready u) eqn:Hu;
      [destruct (Z.lt_ge_cases (next_index f) 8) as [Hlt|Hge]|].
    + destruct (serial_poll_ready f u Hinv) as (b & Hb & ->);
        [by rewrite frame_size | done |].
      set (f1 := mk_frame (data f) (next_index f + 1)).
      assert (Hinv1 : serial_inv f1).
      { split; [rewrite frame_size; cbn; lia | done]. }
      rewrite (IH f1 Hinv1).
      assert (Hp1 : pending f = b :: pending f1).
      { unfold pending, f1. cbn [data next_index].
        replace (Z.to_nat (next_index f + 1))
          with (S (Z.to_nat (next_index f))) by lia.
        by apply drop_S. }
      rewrite Hp1. cbn [length]. cbn [data next_index f1 from_option].
      replace (Nat.min (S (length (pending f1))) (1 + ready_count status))
        with (S (Nat.min (length (pending f1)) (ready_count status)))
        by lia.
      cbn [take app]. do 2 f_equal. lia.
    + rewrite serial_poll_idle by (left; rewrite frame_size; lia).
      rewrite (IH f Hinv). cbn [from_option app].
      rewrite Hp. replace (8 - Z.to_nat (next_index f))%nat with 0%nat by lia.
      done.
    + rewrite serial_poll_idle by by right.
      rewrite (IH f Hinv). done.
Qed.

Lemma decode_layout t v c :
  is_u16 t -> is_u16 v -> is_u16 c ->
  decode_frame (frame_layout t v c) = (t, v, c).
Proof.
  intros Ht Hv Hc. unfold frame_layout, decode_frame. cbn.
  by rewrite !u16_split.
Qed.

Lemma payload_sum_layout t v c :
  payload_sum (frame_layout t v c) = frame_layout t v c !!! 1%nat.
Proof.
  unfold frame_layout, payload_sum, u8. cbn. f_equal. lia.
Qed.

Lemma pending_idle f :
  serial_inv f -> SERIAL_FRAME_SIZE <= next_index f -> pending f = [].
Proof.
  intros [Hidx Hlen] Hge. unfold pending. apply drop_ge. lia.
Qed.

Lemma frames_stream_cons t v c sent :
  frames_stream ((t, v, c) :: sent)
  = frame_layout t v c ++ frames_stream sent.
Proof. done. Qed.

(** The bytes written out so far and the bytes still pending are, over
    any sequence of calls, what was pending at the start followed by the
    accepted frames. *)
Lemma trace_stream ops : forall f,
  serial_inv f ->
  (serial_trace f ops).1.2 ++ pending (serial_trace f ops).1.1
  = pending f ++ frames_stream (serial_trace f ops).2
  /\ serial_inv (serial_trace f ops).1.1.
Proof.
  induction ops as [|[t v c|u] ops IH]; intros f Hinv.
  - cbn. by rewrite app_nil_r.
  - cbn [serial_trace].
    destruct (Z.lt_ge_cases (next_index f) SERIAL_FRAME_SIZE) as [Hlt|Hge].
    + rewrite serial_send_busy by done.
      destruct (IH f Hinv) as [IH1 IH2].
      by destruct (serial_trace f ops) as [[f2 out] acc].
    + rewrite serial_send_layout by (done || apply Hinv).
      set (f1 := mk_frame (frame_layout t v c) 0).
      assert (Hinv1 : serial_inv f1) by (split; [by vm_compute | done]).
      destruct (IH f1 Hinv1) as [IH1 IH2].
      destruct (serial_trace f1 ops) as [[f2 out] acc].
      cbn [fst snd] in *. split; [|done].
      rewrite IH1, frames_stream_cons, (pending_idle f) by done.
      done.
  - cbn [serial_trace].
    destruct (serial_poll_cases f u Hinv) as [->|(b & Hlt & Hb & ->)].
    + destruct (IH f Hinv) as [IH1 IH2].
      by destruct (serial_trace f ops) as [[f2 out] acc].
    + set (f1 := mk_frame (data f) (next_index f + 1)).
      assert (Hinv1 : serial_inv f1).
      { destruct Hinv. split; [cbn; lia | done]. }
      destruct (IH f1 Hinv1) as [IH1 IH2].
      destruct (serial_trace f1 ops) as [[f2 out] acc].
      cbn [fst snd from_option] in *. split; [|done].
      rewrite <- app_assoc, IH1.
      assert (Hp1 : pending f = b :: pending f1).
      { destruct Hinv as [Hidx _]. unfold pending, f1. cbn [data next_index].
        replace (Z.to_nat (next_index f + 1))
          with (S (Z.to_nat (next_index f))) by lia.
        by apply drop_S. }
      by rewrite Hp1.
Qed.

(** X1. Calls of [serial_poll] write out the pending bytes of the frame in
    order, one for each status reading that shows the UART ready, and stop
    at the end of the frame; they never change the frame bytes, and what
    was written followed by what is still pending is what was pending
    before. *)
Theorem serial_polls_drain (f : serial_tx_frame) (status : list Z) :
  serial_inv f ->
  let r := serial_polls f status in
  let k := Nat.min (length (pending f)) (ready_count status) in
  r.2 = take k (pending f)
  /\ data r.1 = data f
  /\ next_index r.1 = next_index f + Z.of_nat k
  /\ r.2 ++ pending r.1 = pending f
  /\ serial_inv r.1.
Proof.
  intros Hinv r k. subst r. rewrite polls_drain by done. fold k.
  cbn [fst snd data next_index].
  pose proof Hinv as [Hidx Hlen].
  assert (Hp : length (pending f)
               = (Z.to_nat SERIAL_FRAME_SIZE - Z.to_nat (next_index f))%nat)
    by (unfold pending; by rewrite length_drop, Hlen).
  split; [done|]. split; [done|]. split; [done|]. split.
  - unfold pending at 2. cbn [data next_index].
    replace (Z.to_nat (next_index f + Z.of_nat k))
      with (Z.to_nat (next_index f) + k)%nat by lia.
    rewrite <- drop_drop. fold (pending f). apply take_drop.
  - split; cbn [data next_index]; [lia | done].
Qed.

Lemma serial_polls_drain_witness :
  serial_inv (mk_frame (frame_layout 500 12345 1023) 0)
  /\ (serial_polls (mk_frame (frame_layout 500 12345 1023) 0)
                   [32; 0; 32; 32]).2
     = [250; 96; 244].
Proof.
  assert (H : serial_inv (mk_frame (frame_layout 500 12345 1023) 0))
    by (split; [by vm_compute | reflexivity]).
  split; [exact H|].
  exact (proj1 (serial_polls_drain
                  (mk_frame (frame_layout 500 12345 1023) 0)
                  [32; 0; 32; 32] H)).
Defined.

(** X2. A frame loaded into an idle buffer and then polled: the bytes
    written out are the first [n] bytes of the frame, [n] the number of
    ready readings; with eight or more the whole frame has gone out, its
    payload sum matches its checksum byte and it decodes to the triple
    that was sent; and the next load is accepted exactly when eight or
    more polls found the UART ready. *)
Theorem send_drain_roundtrip (f : serial_tx_frame) (t v c t' v' c' : Z)
    (status : list Z) :
  serial_inv f -> SERIAL_FRAME_SIZE <= next_index f ->
  is_u16 t -> is_u16 v -> is_u16 c ->
  let f1 := (serial_send f t v c).1 in
  let r := serial_polls f1 status in
  r.2 = take (ready_count status) (frame_layout t v c)
  /\ ((8 <= ready_count status)%nat ->
      r.2 = frame_layout t v c
      /\ decode_frame r.2 = (t, v, c)
      /\ payload_sum r.2 = r.2 !!! 1%nat
      /\ pending r.1 = [])
  /\ ((serial_send r.1 t' v' c').2 = true <-> (8 <= ready_count status)%nat).
Proof.
  intros Hinv Hidle Ht Hv Hc f1 r.
  assert (Hf1 : f1 = mk_frame (frame_layout t v c) 0).
  { subst f1. by rewrite serial_send_layout by (done || apply Hinv). }
  assert (Hinv1 : serial_inv f1)
    by (rewrite Hf1; split; [by vm_compute | done]).
  assert (Hr : r = serial_polls f1 status) by done.
  rewrite polls_drain in Hr by done.
  assert (Hp : pending f1 = frame_layout t v c) by (by rewrite Hf1).
  rewrite Hp in Hr. change (length (frame_layout t v c)) with 8%nat in Hr.
  rewrite Hf1 in Hr. cbn [data next_index] in Hr.
  assert (Hout : r.2 = take (ready_count status) (frame_layout t v c)).
  { rewrite Hr. cbn [snd].
    destruct (Nat.le_ge_cases 8 (ready_count status)) as [Hge|Hle].
    - rewrite Nat.min_l by done. by rewrite !take_ge by (cbn; lia).
    - by rewrite Nat.min_r. }
  split; [done|]. split.
  - intros Hge.
    assert (Hall : r.2 = frame_layout t v c)
      by (rewrite Hout; apply take_ge; cbn; lia).
    rewrite Hall. split; [done|]. split; [by apply decode_layout|].
    split; [apply payload_sum_layout|].
    rewrite Hr. cbn [fst]. rewrite Nat.min_l by done. done.
  - rewrite Hr. cbn [fst]. unfold serial_send. cbn [next_index].
    rewrite frame_size.
    destruct (Z.ltb_spec
                (0 + Z.of_nat (Nat.min 8 (ready_count status))) 8);
      cbn [snd]; split; intros; (done || lia).
Qed.

Lemma send_drain_roundtrip_witness :
  serial_inv (serial_init frame_zero)
  /\ SERIAL_FRAME_SIZE <= next_index (serial_init frame_zero)
  /\ is_u16 500 /\ is_u16 12345 /\ is_u16 1023
  /\ (serial_polls (serial_send (serial_init frame_zero) 500 12345 1023).1
                   [32; 0; 32; 32]).2
     = take (ready_count [32; 0; 32; 32]) (frame_layout 500 12345 1023).
Proof.
  assert (H0 : serial_inv (serial_init frame_zero))
    by (split; [by vm_compute | reflexivity]).
  assert (H1 : SERIAL_FRAME_SIZE <= next_index (serial_init frame_zero))
    by (by vm_compute).
  assert (H2 : is_u16 500) by (unfold is_u16; lia).
  assert (H3 : is_u16 12345) by (unfold is_u16; lia).
  assert (H4 : is_u16 1023) by (unfold is_u16; lia).
  repeat (split; [assumption|]).
  exact (proj1 (send_drain_roundtrip (serial_init frame_zero)
                  500 12345 1023 0 0 0 [32; 0; 32; 32] H0 H1 H2 H3 H4)).
Defined.

(** X3. Over any sequence of calls of [serial_send] and [serial_poll]
    after [serial_init], the bytes written to the UART followed by the
    bytes still pending in the buffer are exactly the frames of the
    accepted loads, back to back and in order: a frame in flight is never
    overwritten, cut short or interleaved with another. *)
Theorem serial_stream_frames (ops : list serial_op) :
  let r := serial_trace (serial_init frame_zero) ops in
  r.1.2 ++ pending r.1.1 = frames_stream r.2
  /\ r.1.1 = serial_run (serial_init frame_zero) ops.
Proof.
  intros r. split.
  - destruct (trace_stream ops _ serial_init_inv) as [H _].
    fold r in H. rewrite H.
    by rewrite (pending_idle _ serial_init_inv) by (by vm_compute).
  - subst r. generalize (serial_init frame_zero).
    induction ops as [|[t v c|u] ops IH]; intros f; [done| |].
    + cbn [serial_trace serial_run foldl serial_apply].
      destruct (serial_send f t v c) as [f1 ok]. specialize (IH f1).
      by destruct (serial_trace f1 ops) as [[f2 out] acc].
    + cbn [serial_trace serial_run foldl serial_apply].
      destruct (serial_poll f u) as [f1 b]. specialize (IH f1).
      by destruct (serial_trace f1 ops) as [[f2 out] acc].
Qed.

Example stream_two_frames :
  serial_trace (serial_init frame_zero)
    (OpSend 1 2 3 :: OpPoll 32 :: OpSend 4 5 6
       :: replicate 9 (OpPoll 32) ++ [OpSend 7 8 9; OpPoll 32])
  = (mk_frame (frame_layout 7 8 9) 1,
     frame_layout 1 2 3 ++ [250], [(1, 2, 3); (7, 8, 9)]).
Proof. vm_compute. reflexivity. Qed.



End SerialDrain.


(** ** Port and ADC register helpers *)

Section Registers.
Import Main Adc.

(** A decidable property of bytes holds if it holds on all 256 values. *)
Lemma forall_u8 (P : Z -> Prop) `{!forall x, Decision (P x)} :
  bool_decide (Forall P (seqZ 0 256)) = true -> forall x, is_u8 x -> P x.
Proof.
  intros Hall x Hx. apply bool_decide_eq_true_1 in Hall.
  rewrite Forall_forall in Hall. apply Hall.
  apply list_elem_of_In, elem_of_seqZ. unfold is_u8 in Hx. lia.
Qed.

(** X5. [led_set] changes the LED bit (bit 5 of [PORTB]) and nothing
    else: the result is a byte, its bit 5 is the argument, and the seven
    other bits (mask 0xDF) are those of the old port value. *)
Theorem led_set_only_led_bit (portb : Z) (on : bool) :
  is_u8 portb ->
  is_u8 (led_set portb on)
  /\ led_on (led_set portb on) = on
  /\ Z.land (led_set portb on) 223 = Z.land portb 223.
Proof.
  revert portb.
  apply (forall_u8 (fun p =>
    is_u8 (led_set p on)
    /\ led_on (led_set p on) = on
    /\ Z.land (led_set p on) 223 = Z.land p 223)).
  destruct on; vm_compute; reflexivity.
Qed.

Lemma led_set_only_led_bit_witness :
  is_u8 255 /\ Z.land (led_set 255 false) 223 = Z.land 255 223.
Proof.
  assert (H : is_u8 255) by (unfold is_u8; lia).
  split; [exact H|].
  exact (proj2 (proj2 (led_set_only_led_bit 255 false H))).
Defined.

(** X6. [adc_select_channel] with a channel number below 16 puts the
    channel in the low four bits of [ADMUX] and keeps the high four bits
    (reference selection and left adjustment); a later selection replaces
    an earlier one. *)
Theorem adc_select_channel_nibbles (admux ch ch' : Z) :
  is_u8 admux -> 0 <= ch < 16 -> 0 <= ch' < 16 ->
  is_u8 (adc_select_channel admux ch)
  /\ Z.land (adc_select_channel admux ch) 15 = ch
  /\ Z.land (adc_select_channel admux ch) 240 = Z.land admux 240
  /\ adc_select_channel (adc_select_channel admux ch) ch'
     = adc_select_channel admux ch'.
Proof.
  intros Ha Hc Hc'.
  assert (Hall :
    Forall (fun a => Forall (fun c =>
      is_u8 (adc_select_channel a c)
      /\ Z.land (adc_select_channel a c) 15 = c
      /\ Z.land (adc_select_channel a c) 240 = Z.land a 240)
      (seqZ 0 16)) (seqZ 0 256)).
  { apply (bool_decide_unpack _). vm_compute. exact I. }
  rewrite Forall_forall in Hall.
  specialize (Hall admux). rewrite Forall_forall in Hall.
  specialize (Hall ltac:(apply list_elem_of_In, elem_of_seqZ;
                          unfold is_u8 in Ha; lia) ch
                   ltac:(apply list_elem_of_In, elem_of_seqZ; lia)).
  destruct Hall as (H1 & H2 & H3). repeat split; try done; try apply H1.
  unfold adc_select_channel at 1. rewrite H3. done.
Qed.

Lemma adc_select_channel_nibbles_witness :
  is_u8 adc_init_admux /\ 0 <= ADC_CHAN_VOLT < 16 /\ 0 <= ADC_CHAN_CURR < 16
  /\ adc_select_channel (adc_select_channel adc_init_admux ADC_CHAN_VOLT)
                        ADC_CHAN_CURR
     = adc_select_channel adc_init_admux ADC_CHAN_CURR.
Proof.
  assert (H1 : is_u8 adc_init_admux) by (by vm_compute).
  assert (H2 : 0 <= ADC_CHAN_VOLT < 16) by (by vm_compute).
  assert (H3 : 0 <= ADC_CHAN_CURR < 16) by (by vm_compute).
  repeat (split; [assumption|]).
  exact (proj2 (proj2 (proj2
    (adc_select_channel_nibbles adc_init_admux ADC_CHAN_VOLT ADC_CHAN_CURR
       H1 H2 H3)))).
Defined.

Example admux_channels :
  [adc_select_channel adc_init_admux ADC_CHAN_OPTO;
   adc_select_channel adc_init_admux ADC_CHAN_VOLT;
   adc_select_channel adc_init_admux ADC_CHAN_CURR]
  = [96; 103; 102].
Proof. reflexivity. Qed.

End Registers.


(** ** Period logic against free-running time *)

Section TrackerTime.
Import Main.

(** X7. The period logic measures elapsed time modulo 2^16.  With the
    previous event at time [T1] and the current sample at time [T2] of a
    free-running clock whose low 16 bits are the timer count: an edge while
    not timed out publishes [(T2 - T1) mod 65536], which is the elapsed
    time itself when that is below 65536; without an edge a stall event is
    published exactly when [(T2 - T1) mod 65536 > 50000]. *)
Theorem track_measures_elapsed (T1 T2 : Z) (flag : bool) :
  (track (mk_timing (u16 T1) false) (u16 T2) true).2
  = mk_verdict true ((T2 - T1) mod 65536)
  /\ (0 <= T2 - T1 < 65536 ->
      (track (mk_timing (u16 T1) false) (u16 T2) true).2
      = mk_verdict true (T2 - T1))
  /\ (need_publish (track (mk_timing (u16 T1) flag) (u16 T2) false).2 = true
      <-> (T2 - T1) mod 65536 > 50000)
  /\ (0 <= T2 - T1 < 65536 ->
      (need_publish (track (mk_timing (u16 T1) flag) (u16 T2) false).2 = true
       <-> T2 - T1 > 50000)).
Proof.
  assert (Hw : u16 (u16 T2 - u16 T1) = (T2 - T1) mod 65536).
  { unfold u16. Z.div_mod_to_equations. lia. }
  assert (Hstall :
    need_publish (track (mk_timing (u16 T1) flag) (u16 T2) false).2 = true
    <-> (T2 - T1) mod 65536 > 50000).
  { unfold track. cbn [prev_opto_timestamp]. rewrite Hw.
    unfold TIMEOUT_TICKS.
    destruct (Z.gtb_spec ((T2 - T1) mod 65536) 50000);
      cbn [snd need_publish]; split; intros; (done || lia). }
  unfold track at 1 2. cbn [opto_timed_out prev_opto_timestamp negb snd].
  rewrite Hw. split; [done|]. split.
  - intros Hd. by rewrite Z.mod_small.
  - split; [done|]. intros Hd. rewrite Hstall, Z.mod_small; done.
Qed.

Example period_across_wrap :
  (track (mk_timing (u16 130000) false) (u16 131500) true).2
  = mk_verdict true 1500.
Proof. reflexivity. Qed.

End TrackerTime.


(** ** DC bias tracker: bounds and baseline *)

Section DcBounds.
Import Opto.

Local Arguments W : simpl never.

(** The value returned by the call after the calls for [samples]. *)
Lemma dc_call_result samples x :
  Forall is_u8 (samples ++ [x]) ->
  (opto_update_dc_signal (dc_run dc_init samples) x).2
  = zsum (lastn W (samples ++ [x]))
    / Z.of_nat (Nat.min W (length (samples ++ [x]))).
Proof.
  intros Hall. pose proof W_Z as HW.
  apply Forall_app in Hall as [Hs Hx]. apply Forall_inv in Hx.
  assert (Hsn : length (samples ++ [x]) = S (length samples))
    by (rewrite length_app; cbn [length]; lia).
  pose proof (dc_run_inv _ Hs) as Hinv.
  destruct (Nat.lt_ge_cases (length samples) W) as [Hlt|Hge].
  - destruct (dc_step_warm _ _ _ Hinv Hs Hx Hlt) as [-> _]. cbn [snd].
    rewrite lastn_short by lia. rewrite zsum_app. cbn [zsum].
    f_equal; lia.
  - destruct (dc_step_full _ _ _ Hinv Hs Hx Hge)
      as (h & rest & Hlast & _ & _ & ->). cbn [snd].
    rewrite lastn_snoc_full by (pose proof W_pos; lia).
    rewrite Hlast. cbn [drop]. rewrite drop_0, zsum_app. cbn [zsum].
    unfold OPTO_DC_HISTORY_LEN. f_equal; lia.
Qed.

Lemma zsum_range l lo hi :
  Forall (fun s => lo <= s <= hi) l ->
  lo * Z.of_nat (length l) <= zsum l <= hi * Z.of_nat (length l).
Proof.
  induction 1 as [|a l Ha _ IH]; cbn [zsum length]; lia.
Qed.


Lemma dc_run_index samples :
  Forall is_u8 samples ->
  index (dc_run dc_init samples)
  = if (length samples <? W)%nat then 0
    else Z.of_nat (length samples) mod OPTO_DC_HISTORY_LEN.
Proof.
  pose proof W_Z as HW. unfold OPTO_DC_HISTORY_LEN.
  induction samples as [|x samples IH] using rev_ind; intros Hall.
  - destruct (Nat.ltb_spec 0 W); [done | lia].
  - apply Forall_app in Hall as [Hs Hx]. apply Forall_inv in Hx.
    specialize (IH Hs). pose proof (dc_run_inv _ Hs) as Hinv.
    unfold dc_run in *. rewrite foldl_snoc. fold (dc_run dc_init samples) in *.
    rewrite length_app. cbn [length].
    destruct (Nat.lt_ge_cases (length samples) W) as [Hlt|Hge].
    + destruct (dc_step_warm _ _ _ Hinv Hs Hx Hlt) as [-> _].
      cbn [fst index].
      destruct (Nat.ltb_spec (length samples + 1) W); [done|].
      replace (Z.of_nat (length samples + 1)) with 1024 by lia. done.
    + destruct (dc_step_full _ _ _ Hinv Hs Hx Hge)
        as (h & rest & _ & _ & _ & ->).
      cbn [fst index]. unfold OPTO_DC_HISTORY_LEN.
      destruct (Nat.ltb_spec (length samples) W); [lia|].
      destruct (Nat.ltb_spec (length samples + 1) W); [lia|].
      rewrite IH.
      destruct (Z.geb_spec (Z.of_nat (length samples) mod 1024 + 1) 1024);
        Z.div_mod_to_equations; lia.
Qed.

(** X8. For 8-bit samples the statics of the tracker stay in bounds after
    any number of calls: the array keeps its 1024 entries, the counter is
    [min N 1024] (it never passes 1024, so it never wraps), the write
    index is 0 until the array is full and [N mod 1024] afterwards, and
    the entry the next call writes is inside the array. *)
Theorem dc_state_in_bounds (samples : list Z) :
  Forall is_u8 samples ->
  let st := dc_run dc_init samples in
  let n := Z.of_nat (length samples) in
  length (hist st) = 1024%nat
  /\ num_samples st = Z.min n 1024
  /\ index st = (if n <? 1024 then 0 else n mod 1024)
  /\ 0 <= (if num_samples st =? OPTO_DC_HISTORY_LEN
           then index st else num_samples st) < 1024
  /\ Forall is_u8 (ring st).
Proof.
  intros Hs st n. pose proof W_Z as HW.
  pose proof (dc_run_inv _ Hs) as Hinv. fold st in Hinv.
  destruct Hinv as [Hlen Hring _ Hcnt Hidx _].
  pose proof (dc_run_index _ Hs) as Hi. fold st in Hi.
  unfold OPTO_DC_HISTORY_LEN in *.
  split; [apply Nat2Z.inj; rewrite Hlen; exact HW|].
  split; [subst n; lia|]. split.
  - rewrite Hi. subst n.
    destruct (Nat.ltb_spec (length samples) W);
      destruct (Z.ltb_spec (Z.of_nat (length samples)) 1024); (done || lia).
  - split.
    + destruct (Z.eqb_spec (num_samples st) 1024); lia.
    + rewrite Hring. by apply Forall_lastn.
Qed.

Lemma dc_state_in_bounds_witness :
  Forall is_u8 (sawtooth 2600)
  /\ index (dc_run dc_init (sawtooth 2600))
     = (if Z.of_nat (length (sawtooth 2600)) <? 1024 then 0
        else Z.of_nat (length (sawtooth 2600)) mod 1024).
Proof.
  assert (H : Forall is_u8 (sawtooth 2600)).
  { apply (bool_decide_unpack _). vm_compute. exact I. }
  split; [exact H|].
  exact (proj1 (proj2 (proj2 (dc_state_in_bounds (sawtooth 2600) H)))).
Defined.

(** X9. The bias returned by a call lies between the smallest and the
    largest sample of the window it averages (the last 1024 samples, the
    current one included). *)
Theorem dc_bias_within_window (samples : list Z) (x lo hi : Z) :
  Forall is_u8 (samples ++ [x]) ->
  Forall (fun s => lo <= s <= hi) (lastn W (samples ++ [x])) ->
  lo <= (opto_update_dc_signal (dc_run dc_init samples) x).2 <= hi.
Proof.
  intros Hall Hrange. pose proof W_Z as HW.
  rewrite dc_call_result by done.
  pose proof (zsum_range _ _ _ Hrange) as Hb.
  rewrite lastn_length in Hb.
  assert (Hn : 0 < Z.of_nat (Nat.min W (length (samples ++ [x])))).
  { rewrite length_app. cbn [length]. lia. }
  split.
  - apply Z.div_le_lower_bound; lia.
  - apply Z.div_le_upper_bound; lia.
Qed.

Lemma dc_bias_within_window_witness :
  Forall is_u8 ([90; 110; 95] ++ [105])
  /\ Forall (fun s => 90 <= s <= 110) (lastn W ([90; 110; 95] ++ [105]))
  /\ 90 <= (opto_update_dc_signal (dc_run dc_init [90; 110; 95]) 105).2
     <= 110.
Proof.
  assert (H1 : Forall is_u8 ([90; 110; 95] ++ [105]))
    by (by apply (bool_decide_unpack _)).
  assert (H2 : Forall (fun s => 90 <= s <= 110)
                 (lastn W ([90; 110; 95] ++ [105])))
    by (by apply (bool_decide_unpack _)).
  split; [exact H1|]. split; [exact H2|].
  exact (dc_bias_within_window [90; 110; 95] 105 90 110 H1 H2).
Defined.

End DcBounds.


(** ** Edge detector: quiet signals, baseline and output pin *)

Section EdgeBehaviour.
Import Opto Edge Pipeline.

Local Arguments W : simpl never.

Lemma u8_id x : is_u8 x -> u8 x = x.
Proof. intros Hx. unfold u8. by apply Z.mod_small. Qed.

Lemma edge_run_snoc st samples x :
  edge_run st (samples ++ [x])
  = (opto_detect_edge (edge_run st samples) x).1.
Proof. unfold edge_run. by rewrite foldl_snoc. Qed.

(** The detector passes every sample on to the tracker. *)
Lemma edge_run_dc samples : forall st,
  Forall is_u8 samples ->
  dc (edge_run st samples) = dc_run (dc st) samples.
Proof.
  induction samples as [|x samples IH] using rev_ind; intros st Hall;
    [done|].
  apply Forall_app in Hall as [Hs Hx]. apply Forall_inv in Hx.
  rewrite edge_run_snoc, detect_spec. cbn [fst dc].
  rewrite (IH st Hs), u8_id by done.
  unfold dc_run. by rewrite foldl_snoc.
Qed.

(** The local [ac] of the call after the calls for [samples]. *)
Lemma ac_after_run samples x :
  Forall is_u8 (samples ++ [x]) ->
  ac_of (edge_run edge_init samples) x
  = x - zsum (lastn W (samples ++ [x]))
        / Z.of_nat (Nat.min W (length (samples ++ [x]))).
Proof.
  intros Hall. pose proof Hall as Hall'.
  apply Forall_app in Hall' as [Hs Hx]. apply Forall_inv in Hx.
  rewrite ac_exact by done. rewrite edge_run_dc by done.
  change (dc edge_init) with dc_init. by rewrite dc_call_result.
Qed.

Lemma range_u8 lo hi l :
  0 <= lo -> hi <= 255 -> Forall (fun s => lo <= s <= hi) l -> Forall is_u8 l.
Proof.
  intros Hlo Hhi H.
  induction H as [|a l Ha _ IH]; constructor; [unfold is_u8; lia | done].
Qed.

Lemma quiet_suffix lo hi suf : forall pre,
  0 <= lo -> hi <= 255 -> hi - lo <= OPTO_THRESHOLD ->
  Forall (fun s => lo <= s <= hi) (pre ++ suf) ->
  in_peak (edge_run edge_init pre) = false ->
  edge_outputs (edge_run edge_init pre) suf = replicate (length suf) false
  /\ in_peak (edge_run edge_init (pre ++ suf)) = false.
Proof.
  unfold OPTO_THRESHOLD.
  induction suf as [|x suf IH]; intros pre Hlo Hhi Hpp Hall Hidle.
  - by rewrite app_nil_r.
  - assert (Hpx : Forall (fun s => lo <= s <= hi) (pre ++ [x])).
    { rewrite cons_middle, app_assoc in Hall.
      by apply Forall_app in Hall as [Hall _]. }
    pose proof (range_u8 _ _ _ Hlo Hhi Hpx) as Hu8.
    pose proof (Forall_lastn _ W _ Hpx) as Hwin.
    pose proof (ac_after_run pre x Hu8) as Hac.
    pose proof (zsum_range _ _ _ Hwin) as Hb. rewrite lastn_length in Hb.
    assert (Hn : 0 < Z.of_nat (Nat.min W (length (pre ++ [x])))).
    { pose proof W_Z. rewrite length_app. cbn [length]. lia. }
    assert (Hbias : lo <= zsum (lastn W (pre ++ [x]))
                          / Z.of_nat (Nat.min W (length (pre ++ [x])))).
    { apply Z.div_le_lower_bound; lia. }
    assert (Hx : x <= hi).
    { apply Forall_app in Hall as [_ Hall]. apply Forall_inv in Hall. lia. }
    cbn [edge_outputs length replicate].
    pose proof (detect_spec (edge_run edge_init pre) x) as Hd.
    rewrite Hidle in Hd. cbn [negb andb] in Hd.
    destruct (Z.gtb_spec (ac_of (edge_run edge_init pre) x) 30) as [Hgt|Hle];
      [lia|].
    rewrite Hd.
    specialize (IH (pre ++ [x]) Hlo Hhi Hpp).
    rewrite <- app_assoc in IH. cbn [app] in IH.
    rewrite edge_run_snoc, Hd in IH. cbn [fst in_peak] in IH.
    destruct (IH Hall eq_refl) as [IH1 IH2].
    by rewrite IH1.
Qed.

(** X10. A signal that stays within a band of at most 30 counts never
    triggers: if every sample since start-up lies in [lo, hi] with
    [hi - lo <= OPTO_THRESHOLD], every call returns false and the detector
    stays idle. *)
Theorem quiet_signal_no_edge (samples : list Z) (lo hi : Z) :
  0 <= lo -> hi <= 255 -> hi - lo <= OPTO_THRESHOLD ->
  Forall (fun s => lo <= s <= hi) samples ->
  edge_outputs edge_init samples = replicate (length samples) false
  /\ in_peak (edge_run edge_init samples) = false.
Proof.
  intros Hlo Hhi Hpp Hall.
  exact (quiet_suffix lo hi samples [] Hlo Hhi Hpp Hall eq_refl).
Qed.

Lemma quiet_signal_no_edge_witness :
  0 <= 100 /\ 130 <= 255 /\ 130 - 100 <= OPTO_THRESHOLD
  /\ Forall (fun s => 100 <= s <= 130) [100; 130; 115; 130; 100; 130]
  /\ edge_outputs edge_init [100; 130; 115; 130; 100; 130]
     = replicate (length [100; 130; 115; 130; 100; 130]%Z) false.
Proof.
  assert (H1 : 0 <= 100) by lia.
  assert (H2 : 130 <= 255) by lia.
  assert (H3 : 130 - 100 <= OPTO_THRESHOLD) by (by vm_compute).
  assert (H4 : Forall (fun s => 100 <= s <= 130)
                 [100; 130; 115; 130; 100; 130])
    by (by apply (bool_decide_unpack _)).
  repeat (split; [assumption|]).
  exact (proj1 (quiet_signal_no_edge
                  [100; 130; 115; 130; 100; 130] 100 130 H1 H2 H3 H4)).
Defined.



Example rpm_pin_falls_late :
  (fun st => (in_peak st, PORTD st))
    <$> [edge_run edge_init [10; 10; 10; 200];
         edge_run edge_init [10; 10; 10; 200; 10];
         edge_run edge_init [10; 10; 10; 200; 10; 10]]
  = [(true, 255); (false, 255); (false, 251)].
Proof. vm_compute. reflexivity. Qed.




Example flat_baseline_edge :
  (opto_detect_edge (edge_run edge_init (replicate (W - 1) 100)) 131).2 = true
  /\ (opto_detect_edge (edge_run edge_init (replicate (W - 1) 100)) 130).2
     = false.
Proof. split; vm_compute; reflexivity. Qed.

End EdgeBehaviour.


(** ** Main loop: pipeline and byte stream *)

Section MainLoop.
Import Opto Edge Serial Main Drain Pipeline.

Lemma polls_conserve f status :
  serial_inv f ->
  (serial_polls f status).2 ++ pending (serial_polls f status).1 = pending f
  /\ data (serial_polls f status).1 = data f
  /\ serial_inv (serial_polls f status).1.
Proof.
  intros Hinv. rewrite polls_drain by done.
  set (k := Nat.min (length (pending f)) (ready_count status)).
  cbn [fst snd]. pose proof Hinv as [Hidx Hlen].
  assert (Hp : length (pending f)
               = (Z.to_nat SERIAL_FRAME_SIZE - Z.to_nat (next_index f))%nat)
    by (unfold pending; by rewrite length_drop, Hlen).
  split; [|split; [done|]].
  - unfold pending at 2. cbn [data next_index].
    replace (Z.to_nat (next_index f + Z.of_nat k))
      with (Z.to_nat (next_index f) + k)%nat by lia.
    rewrite <- drop_drop. fold (pending f). apply take_drop.
  - split; cbn [data next_index]; [lia | done].
Qed.

Lemma main_eta st :
  mk_main (frame st) (edge st) (tim st) (failure_latch st) (PORTB st)
          (uart st) = st.
Proof. by destruct st. Qed.

(** A wait is a run of polls on the frame buffer; the rest of the state
    is carried along. *)
Lemma wait_spec status : forall st,
  wait_adc_poll_serial st status
  = mk_main (serial_polls (frame st) status).1 (edge st) (tim st)
            (failure_latch st) (PORTB st)
            (uart st ++ (serial_polls (frame st) status).2).
Proof.
  induction status as [|u status IH]; intros st.
  - cbn. by rewrite app_nil_r, main_eta.
  - unfold wait_adc_poll_serial in *. cbn [foldl serial_polls].
    rewrite IH. destruct (serial_poll (frame st) u) as [f1 b].
    cbn [frame edge tim failure_latch PORTB uart].
    destruct (serial_polls f1 status) as [f2 bs]. cbn [fst snd].
    by rewrite app_assoc.
Qed.

(** One iteration written out: the detector and the period logic see the
    sample and the timer count; the buffer sees the polls of the first
    wait and, when the iteration publishes, the polls of the three other
    waits and one load. *)
Lemma main_iter_spec st i :
  let e := opto_detect_edge (edge st) (adch i) in
  let tv := track (tim st) (tcnt1 i) e.2 in
  let p0 := serial_polls (frame st) (wait0 i) in
  let p1 := serial_polls p0.1 (wait1 i) in
  let p2 := serial_polls p1.1 (wait2 i) in
  let p3 := serial_polls p2.1 (wait3 i) in
  let sd := serial_send p3.1 (tach tv.2) (adc_read16 (adc_volt i))
                        (adc_read16 (adc_curr i)) in
  main_iter st i
  = if need_publish tv.2
    then (mk_main sd.1 e.1 tv.1
            (if negb sd.2 then true else failure_latch st)
            (led_set (PORTB st)
                     (if negb sd.2 then true else failure_latch st))
            (uart st ++ p0.2 ++ p1.2 ++ p2.2 ++ p3.2),
          Some sd.2)
    else (mk_main p0.1 e.1 tv.1 (failure_latch st) (PORTB st)
                  (uart st ++ p0.2),
          None).
Proof.
  cbv zeta. unfold main_iter. rewrite (wait_spec (wait0 i) st).
  cbn [frame edge tim failure_latch PORTB uart].
  destruct (opto_detect_edge (edge st) (adch i)) as [e1 is_edge].
  cbn [fst snd].
  destruct (track (tim st) (tcnt1 i) is_edge) as [t1 v]. cbn [fst snd].
  destruct (need_publish v); [|done].
  rewrite !wait_spec. cbn [frame edge tim failure_latch PORTB uart].
  destruct (serial_send _ _ _ _) as [f5 ok]. cbn [fst snd].
  by rewrite <- !app_assoc.
Qed.

Lemma main_run_pipeline inputs : forall st,
  edge (main_run st inputs).1 = edge_run (edge st) (adch <$> inputs)
  /\ tim (main_run st inputs).1
     = (track_run (tim st) (tracker_inputs st inputs)).1
  /\ published <$> (main_run st inputs).2
     = need_publish <$> (track_run (tim st) (tracker_inputs st inputs)).2.
Proof.
  induction inputs as [|i inputs IH]; intros st; [done|].
  cbn zeta in *. cbn [main_run]. unfold tracker_inputs in *.
  cbn [fmap list_fmap edge_outputs].
  pose proof (main_iter_spec st i) as Hi. cbv zeta in Hi.
  destruct (opto_detect_edge (edge st) (adch i)) as [e1 is_edge] eqn:He.
  cbn [zip zip_with track_run]. cbn [fst snd] in Hi.
  destruct (track (tim st) (tcnt1 i) is_edge) as [t1 v] eqn:Ht.
  cbn [fst snd] in Hi.
  assert (Hst1 : edge (main_iter st i).1 = e1 /\ tim (main_iter st i).1 = t1
                 /\ published (main_iter st i).2 = need_publish v).
  { rewrite Hi. by destruct (need_publish v). }
  destruct Hst1 as (H1 & H2 & H3).
  destruct (main_iter st i) as [st1 o]. cbn [fst snd] in *.
  specialize (IH st1). rewrite H1, H2 in IH.
  destruct (main_run st1 inputs) as [st2 os].
  destruct (track_run t1 _) as [t2 vs]. cbn [fst snd] in *.
  destruct IH as (IH1 & IH2 & IH3).
  split; [|split; [done|]].
  - rewrite IH1. unfold edge_run. cbn [foldl]. by rewrite He.
  - cbn [fmap list_fmap]. by rewrite H3, IH3.
Qed.


(** X13. Serial traffic never disturbs the measurement: over any run of
    the loop the detector state is the detector run on the ADC samples
    alone, the timing state and the decisions to publish are those of the
    period logic run on the timer counts and the detector's results
    alone; neither depends on the UART status, on the state of the frame
    buffer or on whether a load was accepted. *)
Theorem main_pipeline_independent (st : main_state) (inputs : list hw_input) :
  let r := main_run st inputs in
  let tr := track_run (tim st) (tracker_inputs st inputs) in
  edge r.1 = edge_run (edge st) (adch <$> inputs)
  /\ tim r.1 = tr.1
  /\ published <$> r.2 = need_publish <$> tr.2.
Proof. exact (main_run_pipeline inputs st). Qed.

Example pipeline_ignores_uart :
  (main_run (main_init 0) [flat_input 50001 []; flat_input 34466 []]).2
  = [Some true; Some false]
  /\ (main_run (main_init 0)
               [flat_input 50001 (replicate 8 32); flat_input 34466 []]).2
     = [Some true; Some false]
  /\ (main_run (main_init 0)
               [flat_input 50001 []; flat_input 34466 (replicate 8 32)]).2
     = [Some true; Some true].
Proof. repeat split; vm_compute; reflexivity. Qed.

Lemma frames_stream_app a b :
  frames_stream (a ++ b) = frames_stream a ++ frames_stream b.
Proof. unfold frames_stream. by rewrite fmap_app, concat_app. Qed.

(** One iteration appends to the stream at most the frame it loads. *)
Lemma main_iter_stream st i :
  serial_inv (frame st) ->
  let r := main_iter st i in
  serial_inv (frame r.1)
  /\ exists sent,
       uart r.1 ++ pending (frame r.1)
       = (uart st ++ pending (frame st)) ++ frames_stream sent
       /\ length sent = (if bool_decide (r.2 = Some true) then 1 else 0)%nat.
Proof.
  intros Hinv. cbv zeta. rewrite main_iter_spec. cbv zeta.
  destruct (polls_conserve (frame st) (wait0 i) Hinv) as (C0 & _ & I0).
  set (p0 := serial_polls (frame st) (wait0 i)) in *.
  destruct (need_publish _).
  - destruct (polls_conserve p0.1 (wait1 i) I0) as (C1 & _ & I1).
    set (p1 := serial_polls p0.1 (wait1 i)) in *.
    destruct (polls_conserve p1.1 (wait2 i) I1) as (C2 & _ & I2).
    set (p2 := serial_polls p1.1 (wait2 i)) in *.
    destruct (polls_conserve p2.1 (wait3 i) I2) as (C3 & _ & I3).
    set (p3 := serial_polls p2.1 (wait3 i)) in *.
    assert (Hout : (uart st ++ p0.2 ++ p1.2 ++ p2.2 ++ p3.2) ++ pending p3.1
                   = uart st ++ pending (frame st)).
    { rewrite <- C0, <- C1, <- C2, <- C3. by rewrite <- !app_assoc. }
    cbn [fst snd frame uart].
    destruct (Z.lt_ge_cases (next_index p3.1) SERIAL_FRAME_SIZE) as [Hlt|Hge].
    + rewrite serial_send_busy by done. cbn [fst snd].
      split; [done|]. exists []. split; [|done].
      by rewrite Hout, app_nil_r.
    + rewrite serial_send_layout by (done || apply I3). cbn [fst snd].
      split; [split; [by vm_compute | done]|].
      eexists [(_, _, _)]. split; [|done].
      rewrite <- Hout, (pending_idle _ I3 Hge), !app_nil_r.
      f_equal.
  - cbn [fst snd frame uart]. split; [done|]. exists []. split; [|done].
    by rewrite <- app_assoc, C0, app_nil_r.
Qed.

Lemma main_run_stream inputs : forall st,
  serial_inv (frame st) ->
  exists sent,
    uart (main_run st inputs).1 ++ pending (frame (main_run st inputs).1)
    = (uart st ++ pending (frame st)) ++ frames_stream sent
    /\ length sent
       = length (filter (fun o => o = Some true) (main_run st inputs).2).
Proof.
  induction inputs as [|i inputs IH]; intros st Hinv.
  - exists []. cbn. by rewrite app_nil_r.
  - cbn [main_run].
    destruct (main_iter_stream st i Hinv) as (Hinv1 & sent1 & Hs1 & Hl1).
    destruct (main_iter st i) as [st1 o]. cbn [fst snd] in *.
    destruct (IH st1 Hinv1) as (sent2 & Hs2 & Hl2).
    destruct (main_run st1 inputs) as [st2 os]. cbn [fst snd] in *.
    exists (sent1 ++ sent2). split.
    + by rewrite Hs2, Hs1, frames_stream_app, <- !app_assoc.
    + rewrite length_app, Hl1, Hl2, filter_cons.
      destruct (decide (o = Some true)) as [->|Hn].
      * by rewrite bool_decide_eq_true_2.
      * by rewrite bool_decide_eq_false_2.
Qed.

(** X14. What the loop puts on the serial line is whole frames and
    nothing else: after any number of iterations from start-up, the bytes
    written to the UART followed by the bytes still pending in the buffer
    are a sequence of complete 8-byte frames, one for each publish whose
    load was accepted, back to back. *)
Theorem main_uart_stream (t0 : Z) (inputs : list hw_input) :
  let r := main_run (main_init t0) inputs in
  exists sent,
    uart r.1 ++ pending (frame r.1) = frames_stream sent
    /\ length sent = length (filter (fun o => o = Some true) r.2)
    /\ length (uart r.1 ++ pending (frame r.1)) = (8 * length sent)%nat.
Proof.
  intros r.
  destruct (main_run_stream inputs (main_init t0) serial_init_inv)
    as (sent & Hs & Hl).
  fold r in Hs, Hl. exists sent. split; [exact Hs|]. split; [exact Hl|].
  rewrite Hs. cbn [main_init uart frame app].
  change (pending (serial_init frame_zero)) with (@nil Z).
  cbn [app]. clear. induction sent as [|[[t v] c] sent IH]; [done|].
  rewrite frames_stream_cons, length_app, IH.
  change (length (frame_layout t v c)) with 8%nat. cbn [length]. lia.
Qed.

(** X15. A publish whose load is accepted leaves in the buffer the frame
    of the period decided in this iteration and of the two ADC readings
    shifted right by six, which are 10-bit values, with the cursor at 0;
    it decodes to exactly those three numbers.  An iteration that does
    not publish, or whose load is rejected, leaves the frame bytes
    untouched. *)
Theorem publish_loads_measured_frame (st : main_state) (i : hw_input) :
  serial_inv (frame st) -> is_u16 (adc_volt i) -> is_u16 (adc_curr i) ->
  let r := main_iter st i in
  let v := (track (tim st) (tcnt1 i)
                  (opto_detect_edge (edge st) (adch i)).2).2 in
  (r.2 = Some true ->
   need_publish v = true
   /\ frame r.1
      = mk_frame (frame_layout (tach v) (adc_volt i / 64) (adc_curr i / 64)) 0
   /\ decode_frame (data (frame r.1))
      = (tach v, adc_volt i / 64, adc_curr i / 64)
   /\ is_u16 (tach v)
   /\ 0 <= adc_volt i / 64 < 1024 /\ 0 <= adc_curr i / 64 < 1024)
  /\ (r.2 <> Some true -> data (frame r.1) = data (frame st)).
Proof.
  intros Hinv Hv Hc. cbv zeta. rewrite main_iter_spec. cbv zeta.
  unfold adc_read16. rewrite !Z.shiftr_div_pow2 by lia.
  change (2 ^ 6) with 64.
  destruct (polls_conserve (frame st) (wait0 i) Hinv) as (_ & D0 & I0).
  set (p0 := serial_polls (frame st) (wait0 i)) in *.
  set (v := (track _ _ _).2).
  assert (Htach : is_u16 (tach v)).
  { subst v. unfold track, is_u16, u16.
    destruct (opto_detect_edge _ _).2; [destruct (negb _)|destruct (_ >? _)];
      cbn [snd tach]; try lia.
    apply Z.mod_pos_bound. lia. }
  assert (Hvr : 0 <= adc_volt i / 64 < 1024).
  { unfold is_u16 in Hv.
    split; [apply Z.div_pos; lia | apply Z.div_lt_upper_bound; lia]. }
  assert (Hcr : 0 <= adc_curr i / 64 < 1024).
  { unfold is_u16 in Hc.
    split; [apply Z.div_pos; lia | apply Z.div_lt_upper_bound; lia]. }
  destruct (need_publish v).
  - destruct (polls_conserve p0.1 (wait1 i) I0) as (_ & D1 & I1).
    set (p1 := serial_polls p0.1 (wait1 i)) in *.
    destruct (polls_conserve p1.1 (wait2 i) I1) as (_ & D2 & I2).
    set (p2 := serial_polls p1.1 (wait2 i)) in *.
    destruct (polls_conserve p2.1 (wait3 i) I2) as (_ & D3 & I3).
    set (p3 := serial_polls p2.1 (wait3 i)) in *.
    cbn [fst snd frame].
    destruct (Z.lt_ge_cases (next_index p3.1) SERIAL_FRAME_SIZE) as [Hlt|Hge].
    + rewrite serial_send_busy by done. cbn [fst snd].
      split; [done|]. intros _. by rewrite D3, D2, D1, D0.
    + rewrite serial_send_layout by (done || apply I3). cbn [fst snd data].
      split; [|done]. intros _. split; [done|]. split; [done|].
      split; [|done].
      apply decode_layout; [done | |]; unfold is_u16; lia.
  - cbn [fst snd frame]. split; [done|]. by intros _.
Qed.

Lemma publish_loads_measured_frame_witness :
  serial_inv (frame (main_init 0))
  /\ is_u16 (adc_volt (flat_input 50001 []))
  /\ is_u16 (adc_curr (flat_input 50001 []))
  /\ (main_iter (main_init 0) (flat_input 50001 [])).2 = Some true
  /\ decode_frame
       (data (frame (main_iter (main_init 0) (flat_input 50001 [])).1))
     = (0, 700, 300).
Proof.
  assert (H1 : serial_inv (frame (main_init 0))) by exact serial_init_inv.
  assert (H2 : is_u16 (adc_volt (flat_input 50001 []))) by (by vm_compute).
  assert (H3 : is_u16 (adc_curr (flat_input 50001 []))) by (by vm_compute).
  assert (H4 : (main_iter (main_init 0) (flat_input 50001 [])).2 = Some true)
    by (vm_compute; reflexivity).
  split; [exact H1|]. split; [exact H2|]. split; [exact H3|].
  split; [exact H4|].
  exact (proj1 (proj2 (proj2
    (proj1 (publish_loads_measured_frame (main_init 0) (flat_input 50001 [])
              H1 H2 H3) H4)))).
Defined.

(** What one iteration does to the latch and to the LED port. *)
Lemma main_iter_led st i :
  PORTB st = 255 \/ PORTB st = 223 ->
  let r := main_iter st i in
  (failure_latch r.1 = true <-> failure_latch st = true \/ r.2 = Some false)
  /\ (PORTB r.1 = 255 \/ PORTB r.1 = 223)
  /\ (published r.2 = true -> led_on (PORTB r.1) = failure_latch r.1)
  /\ (published r.2 = false ->
      PORTB r.1 = PORTB st /\ failure_latch r.1 = failure_latch st).
Proof.
  intros Hp. cbv zeta. rewrite main_iter_spec. cbv zeta.
  destruct (need_publish _); cbn [fst snd failure_latch PORTB published].
  - destruct (serial_send _ _ _ _).2; cbn [negb].
    + split; [split; [by left | by intros [?|?]]|].
      split; [|split; [by rewrite led_set_on | done]].
      destruct Hp as [-> | ->]; destruct (failure_latch st);
        vm_compute; auto.
    + split; [split; [by right | done]|].
      split; [|split; [by rewrite led_set_on | done]].
      destruct Hp as [-> | ->]; vm_compute; auto.
  - split; [split; [by left | by intros [?|?]]|]. done.
Qed.

Lemma main_run_led inputs : forall st,
  PORTB st = 255 \/ PORTB st = 223 ->
  let r := main_run st inputs in
  (failure_latch r.1 = true <-> failure_latch st = true \/ In (Some false) r.2)
  /\ (PORTB r.1 = 255 \/ PORTB r.1 = 223)
  /\ (In true (published <$> r.2) \/ led_on (PORTB st) = failure_latch st ->
      led_on (PORTB r.1) = failure_latch r.1)
  /\ (~ In true (published <$> r.2) -> PORTB r.1 = PORTB st).
Proof.
  induction inputs as [|i inputs IH]; intros st Hp.
  - cbn. split; [split; [by left | by intros [?|?]]|].
    split; [done|]. split; [by intros [?|?] | done].
  - cbn zeta in *. cbn [main_run].
    destruct (main_iter_led st i Hp) as (L1 & P1 & D1 & N1).
    destruct (main_iter st i) as [st1 o]. cbn [fst snd] in *.
    destruct (IH st1 P1) as (L2 & P2 & D2 & N2).
    destruct (main_run st1 inputs) as [st2 os].
    cbn [fst snd fmap list_fmap In] in *.
    split; [|split; [done|split]].
    + rewrite L2, L1. split; intros H; [|destruct H as [?|[?|?]]]; auto.
      destruct H as [[?|?]|?]; auto.
    + intros H. apply D2.
      destruct (published o) eqn:Ho.
      * right. by apply D1.
      * destruct (N1 eq_refl) as [-> ->].
        destruct H as [[H|H]|H]; [done | by left | by right].
    + intros H. destruct (published o) eqn:Ho; [exfalso; apply H; by left|].
      destruct (N1 eq_refl) as [<- _]. apply N2. intros H'. apply H. by right.
Qed.

(** X16. From start-up the failure latch is exact: it is set if and only
    if some load was rejected, so it never raises a false alarm.  The LED
    port only ever holds 0xFF or 0xDF; until the first publish it holds
    the 0xFF written by [gpio_init] (LED on), and from the first publish
    on the LED bit equals the latch. *)
Theorem failure_latch_exact (t0 : Z) (inputs : list hw_input) :
  let r := main_run (main_init t0) inputs in
  (failure_latch r.1 = true <-> In (Some false) r.2)
  /\ (PORTB r.1 = 255 \/ PORTB r.1 = 223)
  /\ (In true (published <$> r.2) -> led_on (PORTB r.1) = failure_latch r.1)
  /\ (~ In true (published <$> r.2) -> PORTB r.1 = 255).
Proof.
  intros r.
  destruct (main_run_led inputs (main_init t0) ltac:(by left))
    as (L & P & D & N). fold r in L, P, D, N.
  split; [|split; [done|split]].
  - rewrite L. cbn. split; [by intros [?|?] | by right].
  - intros H. apply D. by left.
  - exact N.
Qed.

Lemma main_run_serial_inv inputs : forall st,
  serial_inv (frame st) -> serial_inv (frame (main_run st inputs).1).
Proof.
  induction inputs as [|i inputs IH]; intros st Hinv; [done|].
  cbn [main_run].
  destruct (main_iter_stream st i Hinv) as [Hinv1 _].
  destruct (main_iter st i) as [st1 o]. cbn [fst] in Hinv1.
  specialize (IH st1 Hinv1).
  by destruct (main_run st1 inputs) as [st2 os].
Qed.

(** X17. A quiet optical signal produces stall frames only.  If every
    sample since start-up lies in a band of at most 30 counts, the
    detector is idle and the tracker timed out after every iteration, an
    iteration publishes exactly when the wrapped timer difference exceeds
    50000, and every frame it loads carries tach = 0 with the two ADC
    readings. *)
Theorem quiet_signal_only_stall_frames (t0 : Z) (pre : list hw_input)
    (i : hw_input) (lo hi : Z) :
  0 <= lo -> hi <= 255 -> hi - lo <= OPTO_THRESHOLD ->
  Forall (fun j => lo <= adch j <= hi) (pre ++ [i]) ->
  let s := (main_run (main_init t0) pre).1 in
  let r := main_iter s i in
  in_peak (edge r.1) = false
  /\ opto_timed_out (tim r.1) = true
  /\ (published r.2 = true
      <-> u16 (tcnt1 i - prev_opto_timestamp (tim s)) > TIMEOUT_TICKS)
  /\ (r.2 = Some true ->
      frame r.1
      = mk_frame (frame_layout 0 (adc_read16 (adc_volt i))
                               (adc_read16 (adc_curr i))) 0).
Proof.
  intros Hlo Hhi Hpp Hall s r.
  assert (Hsamples : Forall (fun x => lo <= x <= hi)
                            ((adch <$> pre) ++ [adch i])).
  { change [adch i] with (adch <$> [i]). rewrite <- fmap_app.
    by apply Forall_fmap. }
  assert (Hpre : Forall (fun x => lo <= x <= hi) (adch <$> pre))
    by (by apply Forall_app in Hsamples as [? _]).
  destruct (quiet_suffix lo hi (adch <$> pre) [] Hlo Hhi Hpp Hpre eq_refl)
    as [Hout_pre Hidle]. cbn [app] in Hidle, Hout_pre.
  change (edge_run edge_init []) with edge_init in Hout_pre.
  destruct (quiet_suffix lo hi [adch i] (adch <$> pre) Hlo Hhi Hpp
              Hsamples Hidle) as [Hout Hidle'].
  destruct (main_run_pipeline pre (main_init t0)) as (He & Ht & _).
  fold s in He, Ht. change (edge (main_init t0)) with edge_init in He.
  assert (Htimed : opto_timed_out (tim s) = true).
  { rewrite Ht. unfold tracker_inputs.
    change (edge (main_init t0)) with edge_init. rewrite Hout_pre.
    change (tim (main_init t0)) with (mk_timing t0 true).
    assert (G : forall ts (bs : list Z) t, opto_timed_out t = true ->
      opto_timed_out
        (track_run t (zip ts (replicate (length bs) false))).1 = true).
    { clear. intros ts bs. revert ts.
      induction bs as [|b bs IH]; intros [|a ts] t Hto; try done.
      cbn [length replicate zip zip_with track_run].
      assert (Ht1 : opto_timed_out (track t a false).1 = true)
        by (unfold track; by destruct (_ >? _)).
      destruct (track t a false) as [t1 v].
      specialize (IH ts t1 Ht1).
      by destruct (track_run t1 _) as [t2 vs]. }
    rewrite length_fmap. rewrite <- (length_fmap adch pre). by apply G. }
  cbn [edge_outputs length replicate] in Hout.
  rewrite <- He in Hout.
  assert (Hedge : (opto_detect_edge (edge s) (adch i)).2 = false).
  { destruct (opto_detect_edge (edge s) (adch i)). by injection Hout. }
  assert (Hedge1 : in_peak (opto_detect_edge (edge s) (adch i)).1 = false).
  { rewrite He. by rewrite edge_run_snoc in Hidle'. }
  assert (Hserial : serial_inv (frame s))
    by apply main_run_serial_inv, serial_init_inv.
  subst r. rewrite main_iter_spec. cbv zeta. rewrite Hedge.
  assert (Htr : track (tim s) (tcnt1 i) false
                = if u16 (tcnt1 i - prev_opto_timestamp (tim s))
                     >? TIMEOUT_TICKS
                  then (mk_timing (tcnt1 i) true, mk_verdict true 0)
                  else (tim s, mk_verdict false 0)) by done.
  rewrite Htr. clear Htr.
  destruct (Z.gtb_spec (u16 (tcnt1 i - prev_opto_timestamp (tim s)))
                       TIMEOUT_TICKS) as [Hgt|Hle];
    cbn [fst snd need_publish tach edge tim frame published
         opto_timed_out].
  - split; [exact Hedge1|]. split; [done|]. split; [split; [lia | done]|].
    intros Hok.
    set (p3 := serial_polls _ (wait3 i)) in *.
    assert (I3 : serial_inv p3.1).
    { subst p3. repeat apply polls_conserve. exact Hserial. }
    destruct (Z.lt_ge_cases (next_index p3.1) SERIAL_FRAME_SIZE) as [Hlt|Hge].
    + rewrite serial_send_busy in Hok by done. discriminate Hok.
    + by rewrite serial_send_layout by (done || apply I3).
  - split; [exact Hedge1|]. split; [done|].
    split; [split; [done | lia]|]. done.
Qed.

Lemma quiet_signal_only_stall_frames_witness :
  0 <= 100 /\ 100 <= 255 /\ 100 - 100 <= OPTO_THRESHOLD
  /\ Forall (fun j => 100 <= adch j <= 100)
            ([flat_input 20000 []; flat_input 40000 []]
               ++ [flat_input 50001 []])
  /\ (main_iter
        (main_run (main_init 0) [flat_input 20000 []; flat_input 40000 []]).1
        (flat_input 50001 [])).2 = Some true
  /\ frame
       (main_iter
          (main_run (main_init 0)
                    [flat_input 20000 []; flat_input 40000 []]).1
          (flat_input 50001 [])).1
     = mk_frame (frame_layout 0 (adc_read16 (adc_volt (flat_input 50001 [])))
                   (adc_read16 (adc_curr (flat_input 50001 [])))) 0.
Proof.
  assert (H1 : 0 <= 100) by lia.
  assert (H2 : 100 <= 255) by lia.
  assert (H3 : 100 - 100 <= OPTO_THRESHOLD) by (by vm_compute).
  assert (H4 : Forall (fun j => 100 <= adch j <= 100)
                 ([flat_input 20000 []; flat_input 40000 []]
                    ++ [flat_input 50001 []]))
    by (by apply (bool_decide_unpack _)).
  assert (H5 : (main_iter
                  (main_run (main_init 0)
                            [flat_input 20000 []; flat_input 40000 []]).1
                  (flat_input 50001 [])).2 = Some true)
    by (vm_compute; reflexivity).
  split; [exact H1|]. split; [exact H2|]. split; [exact H3|].
  split; [exact H4|]. split; [exact H5|].
  exact (proj2 (proj2 (proj2
    (quiet_signal_only_stall_frames 0
       [flat_input 20000 []; flat_input 40000 []] (flat_input 50001 [])
       100 100 H1 H2 H3 H4))) H5).
Defined.

Example quiet_run_stalls :
  (main_run (main_init 0)
     [flat_input 20000 []; flat_input 40000 []; flat_input 50001 []]).2
  = [None; None; Some true].
Proof. vm_compute. reflexivity. Qed.

End MainLoop.
